(** * public-chat-backend: the message relay of [server.js]

    A shallow embedding of the storage adapter ([getMessages], [saveMessage],
    [updateMessage], [deleteMessage]), of the four REST handlers and of the
    Socket.IO handlers of [server.js], followed by the properties of the
    specification that concern them.

    Conventions of the embedding.
    - A JavaScript object used as a record of optional fields (a request
      body, an event payload, an object literal passed to [emit]) is a
      [gmap string jsval]; a field that is absent reads as [JUndefined].
      A request body or an event payload that is absent altogether is [None]:
      destructuring it throws, and the handler's [catch] answers.
    - A message is a record: its fields are fixed by the two places that build
      it (the POST handler and the [sendMessage] handler).
    - [new Date()] and the identifier generators ([uuidv4()], the [insertedId]
      of the driver) read the environment: their results are arguments of the
      operation that performs the read.
    - A handler is one atomic step from a state to a state and the list of the
      effects it performs, in program order.
    - The MongoDB driver is outside the repository.  Its collection is a list
      of documents in insertion order, and the four calls the program makes
      follow the driver's documented results ([insertedId], [modifiedCount],
      [deletedCount], the exception of the [ObjectId] constructor).  Calls to
      a connected store are taken to complete: network failures are not
      modelled. *)

From Stdlib Require Import ZArith NArith Ascii String.
From stdpp Require Import base option list strings gmap sorting.

Open Scope Z_scope.

(** ** JavaScript values *)

Module JS.

(** What the [id] property of a nested value holds: the only property of a
    nested value that anything called by the program reads (the [ObjectId]
    constructor does). *)
Inductive idprop : Type :=
  | NoId                  (* an array, or an object without [id] *)
  | IdStr (s : string)    (* an object whose [id] is a string *)
  | IdOther.              (* an object whose [id] is anything else *)

#[global] Instance idprop_eq_dec : EqDecision idprop.
Proof. solve_decision. Defined.

(** The values a JSON body or payload field can hold, and [undefined] for a
    field that is absent.  A nested array or object is carried by its JSON
    text and by its [id] property: the program looks no further inside
    one. *)
Inductive jsval : Type :=
  | JUndefined
  | JNull
  | JBool (b : bool)
  | JNum (n : Z)
  | JStr (s : string)
  | JNested (json : string) (id : idprop).

#[global] Instance jsval_eq_dec : EqDecision jsval.
Proof. solve_decision. Defined.

(** [!v] is [negb (truthy v)]. *)
Definition truthy (v : jsval) : bool :=
  match v with
  | JUndefined | JNull => false
  | JBool b => b
  | JNum n => negb (n =? 0)
  | JStr s => negb (String.eqb s "")
  | JNested _ _ => true
  end.

(** [a || b] *)
Definition or_else (a b : jsval) : jsval := if truthy a then a else b.

(** Property read [o.k], as performed by a destructuring [const { k } = o]. *)
Definition field (o : gmap string jsval) (k : string) : jsval :=
  default JUndefined (o !! k).

Inductive exn : Type :=
  | TypeError      (* destructuring of undefined or null *)
  | BSONError.     (* thrown by the ObjectId constructor *)

Inductive result (A : Type) : Type :=
  | Ok (a : A)
  | Throw (e : exn).
Arguments Ok {A} a.
Arguments Throw {A} e.

Definition bind {A B} (r : result A) (k : A -> result B) : result B :=
  match r with
  | Ok a => k a
  | Throw e => Throw e
  end.

(** [try { body } catch (error) { handler }] *)
Definition try_catch {A} (body : result A) (handler : exn -> A) : A :=
  match body with
  | Ok a => a
  | Throw e => handler e
  end.

(** [const { ... } = data]: destructuring an object, or [None] when the
    value is [undefined] or [null], which throws. *)
Definition destructure (data : option (gmap string jsval))
  : result (gmap string jsval) :=
  match data with
  | Some o => Ok o
  | None => Throw TypeError
  end.

End JS.
Export JS.

Notation "x <- r ;; k" := (bind r (fun x => k))
  (at level 100, r at next level, right associativity).

(** ** Messages and the two stores *)

(** The [ObjectId] constructor of the driver (bson 6), applied to a value
    that came out of a path parameter or a JSON payload.  A string is accepted
    when it is made of exactly 24 hexadecimal digits and denotes the 96-bit
    number they spell; any other string makes the constructor throw.
    [undefined], [null] and a number make it generate an identifier of its
    own, which is the [_id] of no stored document ([Ok None]).  An object
    with a string [id] property is read as that string.  The remaining
    values throw: a boolean, an array, an object with no [id] or with an
    [id] that is not a string. *)
Module ObjectId.

Definition hex_digit (a : ascii) : option N :=
  let n := N_of_ascii a in
  if ((48 <=? n) && (n <=? 57))%N then Some (n - 48)%N
  else if ((97 <=? n) && (n <=? 102))%N then Some (n - 87)%N
  else if ((65 <=? n) && (n <=? 70))%N then Some (n - 55)%N
  else None.

Fixpoint hex_value (acc : N) (s : string) : option N :=
  match s with
  | EmptyString => Some acc
  | String a s' =>
      match hex_digit a with
      | Some d => hex_value (16 * acc + d)%N s'
      | None => None
      end
  end.

Definition of_string (s : string) : option N :=
  if Nat.eqb (String.length s) 24 then hex_value 0%N s else None.

Definition new (v : jsval) : result (option N) :=
  match v with
  | JStr s | JNested _ (IdStr s) =>
      match of_string s with
      | Some o => Ok (Some o)
      | None => Throw BSONError
      end
  | JUndefined | JNull | JNum _ => Ok None
  | JBool _ | JNested _ NoId | JNested _ IdOther => Throw BSONError
  end.

(** [toHexString()], also the form an [ObjectId] takes in a JSON body:
    24 lower-case hexadecimal digits. *)
Definition hex_char (d : N) : ascii :=
  ascii_of_N (if (d <? 10)%N then d + 48 else d + 87)%N.

Fixpoint hex_digits (k : nat) (o : N) (acc : string) : string :=
  match k with
  | O => acc
  | S k => hex_digits k (o / 16)%N (String (hex_char (o mod 16)%N) acc)
  end.

Definition toHexString (o : N) : string := hex_digits 24 o "".

End ObjectId.

(** The [_id] of a stored message: the string of [uuidv4()] in the in-memory
    list, the driver's [ObjectId] in the collection. *)
Inductive msgid : Type :=
  | Uuid (s : string)
  | Oid (o : N).

#[global] Instance msgid_eq_dec : EqDecision msgid.
Proof. solve_decision. Defined.

Record message : Type := Message {
  _id : option msgid;          (* absent until the message is saved *)
  senderId : jsval;
  content : jsval;
  conversationId : jsval;
  timestamp : Z;               (* Date, in milliseconds *)
  createdAt : Z;
  updatedAt : option Z         (* absent until the first update *)
}.

#[global] Instance message_eq_dec : EqDecision message.
Proof. solve_decision. Defined.

(** [{ ...message, _id: i }] and [message._id = i] *)
Definition with_id (i : msgid) (m : message) : message :=
  {| _id := Some i; senderId := senderId m; content := content m;
     conversationId := conversationId m; timestamp := timestamp m;
     createdAt := createdAt m; updatedAt := updatedAt m |}.

(** [m.content = c; m.updatedAt = now], also the effect of
    [{ $set: { content: c, updatedAt: now } }] on a document. *)
Definition set_content (c : jsval) (now : Z) (m : message) : message :=
  {| _id := _id m; senderId := senderId m; content := c;
     conversationId := conversationId m; timestamp := timestamp m;
     createdAt := createdAt m; updatedAt := Some now |}.

(** [let db; let messages = [];]  [db] stays unset until the connection to
    MongoDB succeeds; it then holds the [messages] collection. *)
Record state : Type := State {
  db : option (list message);
  messages : list message
}.

Definition initial : state := {| db := None; messages := [] |}.

Definition set_db (c : list message) (s : state) : state :=
  {| db := Some c; messages := messages s |}.
Definition set_messages (l : list message) (s : state) : state :=
  {| db := db s; messages := l |}.

(** ** The calls made to the driver *)

Module Mongo.

Definition ts_le (m1 m2 : message) : Prop := timestamp m1 <= timestamp m2.

#[global] Instance ts_le_dec : RelDecision ts_le.
Proof. intros m1 m2. unfold ts_le. apply _. Defined.

(** [find().sort({ timestamp: 1 }).toArray()] *)
Definition find_sorted (c : list message) : list message := merge_sort ts_le c.

(** [insertOne(doc)], the driver having chosen [insertedId]. *)
Definition insertOne (c : list message) (doc : message) (insertedId : N)
  : list message := c ++ [with_id (Oid insertedId) doc].

Definition has_oid (o : N) (m : message) : Prop := _id m = Some (Oid o).

#[global] Instance has_oid_dec o m : Decision (has_oid o m).
Proof. unfold has_oid. apply _. Defined.

Record UpdateResult : Type := { matchedCount : nat; modifiedCount : nat }.

(** [updateOne({ _id: o }, { $set: { content, updatedAt } })]: the first
    document with that [_id] is matched; it counts as modified when the
    [$set] changes it. *)
Definition updateOne (c : list message) (o : N) (ct : jsval) (now : Z)
  : list message * UpdateResult :=
  match list_find (has_oid o) c with
  | Some (i, doc) =>
      let doc' := set_content ct now doc in
      (<[i := doc']> c,
       {| matchedCount := 1;
          modifiedCount := if decide (doc' = doc) then 0 else 1 |})
  | None => (c, {| matchedCount := 0; modifiedCount := 0 |})
  end.

(** [deleteOne({ _id: o })] with its [deletedCount]. *)
Definition deleteOne (c : list message) (o : N) : list message * nat :=
  match list_find (has_oid o) c with
  | Some (i, _) => (delete i c, 1%nat)
  | None => (c, 0%nat)
  end.

End Mongo.

(** ** The storage adapter *)

(** [msg._id === messageId]: the stored [_id] against a value received from
    a client.  An [ObjectId] is an object and equals no received value. *)
Definition strict_eq_id (i : option msgid) (v : jsval) : bool :=
  match i, v with
  | None, JUndefined => true
  | Some (Uuid s), JStr s' => bool_decide (s = s')
  | _, _ => false
  end.

Definition id_is (messageId : jsval) (msg : message) : Prop :=
  strict_eq_id (_id msg) messageId = true.

#[global] Instance id_is_dec v m : Decision (id_is v m).
Proof. unfold id_is. apply _. Defined.

(** What the environment hands to [saveMessage]: the [insertedId] reported by
    the driver and the string returned by [uuidv4()]. *)
Record idgen : Type := { insertedId : N; uuidv4 : string }.

Definition getMessages (s : state) : list message :=
  match db s with
  | Some c => Mongo.find_sorted c
  | None => messages s
  end.

Definition saveMessage (s : state) (msg : message) (g : idgen)
  : state * message :=
  match db s with
  | Some c =>
      (set_db (Mongo.insertOne c msg (insertedId g)) s,
       with_id (Oid (insertedId g)) msg)
  | None =>
      let msg := with_id (Uuid (uuidv4 g)) msg in
      (set_messages (messages s ++ [msg]) s, msg)
  end.

Definition updateMessage (s : state) (messageId content : jsval) (now : Z)
  : result (state * bool) :=
  match db s with
  | Some c =>
      o <- ObjectId.new messageId ;;
      match o with
      | Some o =>
          let '(c', result) := Mongo.updateOne c o content now in
          Ok (set_db c' s, bool_decide (0 < Mongo.modifiedCount result)%nat)
      | None => Ok (s, false)
      end
  | None =>
      match list_find (id_is messageId) (messages s) with
      | Some (messageIndex, msg) =>
          Ok (set_messages
                (<[messageIndex := set_content content now msg]> (messages s)) s,
              true)
      | None => Ok (s, false)
      end
  end.

Definition deleteMessage (s : state) (messageId : jsval)
  : result (state * bool) :=
  match db s with
  | Some c =>
      o <- ObjectId.new messageId ;;
      match o with
      | Some o =>
          let '(c', deletedCount) := Mongo.deleteOne c o in
          Ok (set_db c' s, bool_decide (0 < deletedCount)%nat)
      | None => Ok (s, false)
      end
  | None =>
      match list_find (id_is messageId) (messages s) with
      | Some (messageIndex, _) =>
          Ok (set_messages (delete messageIndex (messages s)) s, true)
      | None => Ok (s, false)
      end
  end.

(** ** Effects of a handler *)

Inductive payload : Type :=
  | PMessage (m : message)                 (* a message object *)
  | PMessages (l : list message)           (* an array of messages *)
  | PObject (o : gmap string jsval).       (* an object literal *)

Inductive effect : Type :=
  | IoEmit (event : string) (p : payload)
      (* [io.emit(event, p)]: to every connection *)
  | SocketEmit (socket : nat) (event : string) (p : payload)
      (* [socket.emit(event, p)]: to that connection only *)
  | Respond (status : nat) (body : payload).
      (* [res.status(status).json(body)]; [res.json] answers 200 *)

Definition error_body (text : string) : payload :=
  PObject {[ "error" := JStr text ]}.
Definition error_event (socket : nat) (text : string) : effect :=
  SocketEmit socket "error" (PObject {[ "message" := JStr text ]}).
Definition success_body (text : string) : payload :=
  PObject {[ "success" := JBool true; "message" := JStr text ]}.

(** The object literal built by the POST handler and by [sendMessage]; the
    two [new Date()] read [now1] then [now2]. *)
Definition new_message (senderId content conversationId : jsval)
    (now1 now2 : Z) : message :=
  {| _id := None; senderId := senderId; content := content;
     conversationId := or_else conversationId (JStr "general");
     timestamp := now1; createdAt := now2; updatedAt := None |}.

(** ** REST endpoints *)

Module Rest.

(** [app.get('/api/messages')] *)
Definition get_messages (s : state) : state * list effect :=
  try_catch
    (Ok (s, [Respond 200 (PMessages (getMessages s))]))
    (fun _ => (s, [Respond 500 (error_body "Failed to fetch messages")])).

(** [app.post('/api/messages')].  [body] is [req.body]: the parsed JSON
    object, or [None] when the request carried no JSON body and the parser
    left [req.body] undefined. *)
Definition post_messages (s : state) (body : option (gmap string jsval))
    (now1 now2 : Z) (g : idgen) : state * list effect :=
  try_catch
    (body <- destructure body ;;
     let senderId := field body "senderId" in
     let content := field body "content" in
     let conversationId := field body "conversationId" in
     if negb (truthy senderId) || negb (truthy content) then
       Ok (s, [Respond 400 (error_body "senderId and content are required")])
     else
       let message := new_message senderId content conversationId now1 now2 in
       let '(s', savedMessage) := saveMessage s message g in
       Ok (s', [IoEmit "newMessage" (PMessage savedMessage);
                Respond 201 (PMessage savedMessage)]))
    (fun _ => (s, [Respond 500 (error_body "Failed to create message")])).

(** [app.put('/api/messages/:id')] *)
Definition put_messages_id (s : state) (id : string)
    (body : option (gmap string jsval)) (now : Z) : state * list effect :=
  try_catch
    (body <- destructure body ;;
     let content := field body "content" in
     if negb (truthy content) then
       Ok (s, [Respond 400 (error_body "content is required")])
     else
       r <- updateMessage s (JStr id) content now ;;
       let '(s', updated) := r in
       if updated : bool then
         Ok (s', [IoEmit "messageUpdated"
                    (PObject {[ "messageId" := JStr id; "content" := content ]});
                  Respond 200 (success_body "Message updated successfully")])
       else
         Ok (s', [Respond 404 (error_body "Message not found")]))
    (fun _ => (s, [Respond 500 (error_body "Failed to update message")])).

(** [app.delete('/api/messages/:id')] *)
Definition delete_messages_id (s : state) (id : string)
  : state * list effect :=
  try_catch
    (r <- deleteMessage s (JStr id) ;;
     let '(s', deleted) := r in
     if deleted : bool then
       Ok (s', [IoEmit "messageDeleted" (PObject {[ "messageId" := JStr id ]});
                Respond 200 (success_body "Message deleted successfully")])
     else
       Ok (s', [Respond 404 (error_body "Message not found")]))
    (fun _ => (s, [Respond 500 (error_body "Failed to delete message")])).

End Rest.

(** ** Socket.IO handlers *)

Module Socket.

(** The argument of an inbound event is an object, or [None] when the client
    sent [undefined] or [null]. *)

(** [io.on('connection')]: the current list goes to the new connection. *)
Definition on_connection (s : state) (socket : nat) : state * list effect :=
  (s, [SocketEmit socket "existingMessages" (PMessages (getMessages s))]).

(** [socket.on('sendMessage')] *)
Definition on_sendMessage (s : state) (socket : nat)
    (data : option (gmap string jsval)) (now1 now2 : Z) (g : idgen)
  : state * list effect :=
  try_catch
    (o <- destructure data ;;
     let senderId := field o "senderId" in
     let content := field o "content" in
     let conversationId := field o "conversationId" in
     if negb (truthy senderId) || negb (truthy content) then
       Ok (s, [error_event socket "senderId and content are required"])
     else
       let message := new_message senderId content conversationId now1 now2 in
       let '(s', savedMessage) := saveMessage s message g in
       Ok (s', [IoEmit "newMessage" (PMessage savedMessage)]))
    (fun _ => (s, [error_event socket "Failed to send message"])).

(** [socket.on('updateMessage')] *)
Definition on_updateMessage (s : state) (socket : nat)
    (data : option (gmap string jsval)) (now : Z) : state * list effect :=
  try_catch
    (o <- destructure data ;;
     let messageId := field o "messageId" in
     let content := field o "content" in
     if negb (truthy messageId) || negb (truthy content) then
       Ok (s, [error_event socket "messageId and content are required"])
     else
       r <- updateMessage s messageId content now ;;
       let '(s', updated) := r in
       if updated : bool then
         Ok (s', [IoEmit "messageUpdated"
                    (PObject {[ "messageId" := messageId; "content" := content ]})])
       else
         Ok (s', [error_event socket "Message not found"]))
    (fun _ => (s, [error_event socket "Failed to update message"])).

(** [socket.on('deleteMessage')] *)
Definition on_deleteMessage (s : state) (socket : nat)
    (data : option (gmap string jsval)) : state * list effect :=
  try_catch
    (o <- destructure data ;;
     let messageId := field o "messageId" in
     if negb (truthy messageId) then
       Ok (s, [error_event socket "messageId is required"])
     else
       r <- deleteMessage s messageId ;;
       let '(s', deleted) := r in
       if deleted : bool then
         Ok (s', [IoEmit "messageDeleted"
                    (PObject {[ "messageId" := messageId ]})])
       else
         Ok (s', [error_event socket "Message not found"]))
    (fun _ => (s, [error_event socket "Failed to delete message"])).

End Socket.

(** ** The server as a transition system *)

Inductive event : Type :=
  | MongoConnected (collection : list message)
      (* the [then] of [MongoClient.connect]: [db] is set *)
  | HttpGet
  | HttpPost (body : option (gmap string jsval)) (now1 now2 : Z) (g : idgen)
  | HttpPut (id : string) (body : option (gmap string jsval)) (now : Z)
  | HttpDelete (id : string)
  | Connect (socket : nat)
  | OnSendMessage (socket : nat) (data : option (gmap string jsval))
      (now1 now2 : Z) (g : idgen)
  | OnUpdateMessage (socket : nat) (data : option (gmap string jsval)) (now : Z)
  | OnDeleteMessage (socket : nat) (data : option (gmap string jsval))
  | Disconnect (socket : nat).

Definition step (s : state) (e : event) : state * list effect :=
  match e with
  | MongoConnected c => (set_db c s, [])
  | HttpGet => Rest.get_messages s
  | HttpPost body now1 now2 g => Rest.post_messages s body now1 now2 g
  | HttpPut id body now => Rest.put_messages_id s id body now
  | HttpDelete id => Rest.delete_messages_id s id
  | Connect socket => Socket.on_connection s socket
  | OnSendMessage socket data now1 now2 g =>
      Socket.on_sendMessage s socket data now1 now2 g
  | OnUpdateMessage socket data now => Socket.on_updateMessage s socket data now
  | OnDeleteMessage socket data => Socket.on_deleteMessage s socket data
  | Disconnect _ => (s, [])
  end.

(** The state after a sequence of events. *)
Definition run (s : state) (es : list event) : state :=
  foldl (fun s e => fst (step s e)) s es.

(** The readings of the clock made while the events are handled are in
    non-decreasing order, starting from [last]. *)
Fixpoint clock_monotone (last : Z) (es : list event) : Prop :=
  match es with
  | [] => True
  | e :: es =>
      match e with
      | HttpPost _ now1 now2 _ | OnSendMessage _ _ now1 now2 _ =>
          last <= now1 /\ now1 <= now2 /\ clock_monotone now2 es
      | HttpPut _ _ now | OnUpdateMessage _ _ now =>
          last <= now /\ clock_monotone now es
      | _ => clock_monotone last es
      end
  end.

(** ** Vocabulary of the specification *)

(** The contents of the active backend. *)
Definition stored (s : state) : list message :=
  match db s with
  | Some c => c
  | None => messages s
  end.

(** A message with identifier [messageId] exists in the active backend: in
    the in-memory list its [_id] is that string; in the collection its [_id]
    is the [ObjectId] the string denotes. *)
Definition present (s : state) (messageId : jsval) : Prop :=
  match db s with
  | Some c =>
      exists o, ObjectId.new messageId = Ok (Some o) /\ Exists (Mongo.has_oid o) c
  | None => Exists (id_is messageId) (messages s)
  end.

(** [l'] is [l] where the first message satisfying [P] had its content
    replaced by [ct] and its [updatedAt] set to [now]. *)
Definition replaced (P : message -> Prop) (ct : jsval) (now : Z)
    (l l' : list message) : Prop :=
  exists l1 m l2,
    l = l1 ++ m :: l2 /\ Forall (fun x => ~ P x) l1 /\ P m /\
    l' = l1 ++ set_content ct now m :: l2.

(** [l'] is [l] without the first message satisfying [P]. *)
Definition removed (P : message -> Prop) (l l' : list message) : Prop :=
  exists l1 m l2,
    l = l1 ++ m :: l2 /\ Forall (fun x => ~ P x) l1 /\ P m /\ l' = l1 ++ l2.

(** The status of the HTTP response among the effects of a handler. *)
Fixpoint status (effs : list effect) : option nat :=
  match effs with
  | [] => None
  | Respond st _ :: _ => Some st
  | _ :: effs => status effs
  end.

(** The events sent to every connection, in order. *)
Fixpoint broadcasts (effs : list effect) : list (string * payload) :=
  match effs with
  | [] => []
  | IoEmit ev p :: effs => (ev, p) :: broadcasts effs
  | _ :: effs => broadcasts effs
  end.

(** The events sent to single connections, in order. *)
Fixpoint unicasts (effs : list effect) : list (nat * string * payload) :=
  match effs with
  | [] => []
  | SocketEmit socket ev p :: effs => (socket, ev, p) :: unicasts effs
  | _ :: effs => unicasts effs
  end.

(** A required field counts as missing when its value is falsy: the field is
    absent, or holds the empty string, [null], [false] or [0]. *)
Definition missing (o : gmap string jsval) (k : string) : Prop :=
  truthy (field o k) = false.

(** The payload of a [deleteMessage] event carries no message identifier:
    there is no payload, or its [messageId] is missing. *)
Definition lacks_id (data : option (gmap string jsval)) : Prop :=
  match data with
  | Some o => missing o "messageId"
  | None => True
  end.


(** The identifier of a stored message as a client reads it in a JSON body
    and sends it back. *)
Definition id_json (i : msgid) : jsval :=
  match i with
  | Uuid u => JStr u
  | Oid o => JStr (ObjectId.toHexString o)
  end.

(** The generated identifier is carried by no stored message. *)
Definition fresh (g : idgen) (s : state) : Prop :=
  match db s with
  | Some c => Forall (fun m => _id m <> Some (Oid (insertedId g))) c
  | None => Forall (fun m => _id m <> Some (Uuid (uuidv4 g))) (messages s)
  end.

(** The HTTP responses among the effects of a handler, in order. *)
Fixpoint responses (effs : list effect) : list (nat * payload) :=
  match effs with
  | [] => []
  | Respond st body :: effs => (st, body) :: responses effs
  | _ :: effs => responses effs
  end.

(** The part of a message that an update is not meant to touch: everything
    but [content] and [updatedAt]. *)
Definition frame (m : message) : option msgid * jsval * jsval * Z * Z :=
  (_id m, senderId m, conversationId m, timestamp m, createdAt m).

(** The event is an HTTP request. *)
Definition is_request (e : event) : bool :=
  match e with
  | HttpGet | HttpPost _ _ _ _ | HttpPut _ _ _ | HttpDelete _ => true
  | _ => false
  end.

(** The connection a channel event comes from. *)
Definition origin (e : event) : option nat :=
  match e with
  | Connect socket | OnSendMessage socket _ _ _ _ | OnUpdateMessage socket _ _
  | OnDeleteMessage socket _ | Disconnect socket => Some socket
  | _ => None
  end.

(** The event is the resolution of the connection to MongoDB. *)
Definition is_connected (e : event) : bool :=
  match e with
  | MongoConnected _ => true
  | _ => false
  end.

(** The effects of a sequence of events, in order. *)
Fixpoint trace_effects (s : state) (es : list event) : list effect :=
  match es with
  | [] => []
  | e :: es => snd (step s e) ++ trace_effects (fst (step s e)) es
  end.

(** No two messages of the list carry the same [_id]. *)
Definition unique_ids (l : list message) : Prop := NoDup (_id <$> l).

(** The message [m] is the one a client designates by [messageId] in the
    active backend. *)
Definition names (s : state) (messageId : jsval) (m : message) : Prop :=
  match db s with
  | Some _ => exists o, ObjectId.new messageId = Ok (Some o) /\ Mongo.has_oid o m
  | None => id_is messageId m
  end.

(** The two states use the same backend, and the in-memory list of a
    connected server is the same in both. *)
Definition same_backend (s s' : state) : Prop :=
  match db s with
  | Some _ => is_Some (db s') /\ messages s' = messages s
  | None => db s' = None
  end.

(** The identifier generated while [e] is handled is carried by no stored
    message, and a collection the server connects to holds no identifier
    twice. *)
Definition fresh_for (s : state) (e : event) : Prop :=
  match e with
  | HttpPost _ _ _ g | OnSendMessage _ _ _ _ g => fresh g s
  | MongoConnected c => unique_ids c
  | _ => True
  end.

(** [fresh_for] holds at every event of the sequence, in the state the
    event is handled in. *)
Fixpoint fresh_along (s : state) (es : list event) : Prop :=
  match es with
  | [] => True
  | e :: es => fresh_for s e /\ fresh_along (fst (step s e)) es
  end.

(** The dates of a message are consistent with a clock that last read
    [last]: [timestamp] was read before [createdAt], and [updatedAt], when
    present, was read after [createdAt]; none is later than [last]. *)
Definition well_dated (last : Z) (m : message) : Prop :=
  timestamp m <= createdAt m /\ createdAt m <= last /\
  forall u, updatedAt m = Some u -> createdAt m <= u /\ u <= last.

(** ** Sample data *)

Module Sample.

Definition chat (i : msgid) (text : string) (t : Z) : message :=
  {| _id := Some i; senderId := JStr "u1"; content := JStr text;
     conversationId := JStr "general"; timestamp := t; createdAt := t;
     updatedAt := None |}.

Definition oid1 : N := 0x507f1f77bcf86cd799439011%N.
Definition oid2 : N := 0x507f191e810c19729de860ea%N.

(** In-memory fallback holding three messages, two of them under one id. *)
Definition memory : state :=
  {| db := None;
     messages := [chat (Uuid "m-1") "one" 10; chat (Uuid "m-2") "two" 20;
                  chat (Uuid "m-2") "again" 30] |}.

(** Connected store holding two documents, inserted out of time order. *)
Definition durable : state :=
  {| db := Some [chat (Oid oid1) "late" 40; chat (Oid oid2) "early" 15];
     messages := [] |}.

Definition gen : idgen := {| insertedId := 0x65a1b2c3d4e5f60718293a4b%N;
                             uuidv4 := "m-9" |}.

Definition hi : gmap string jsval :=
  {[ "senderId" := JStr "u1"; "content" := JStr "hi" ]}.

Definition new_text : gmap string jsval := {[ "content" := JStr "x" ]}.

Definition gen' : idgen := {| insertedId := 0x65a1b2c3d4e5f60718293a4c%N;
                              uuidv4 := "m-10" |}.

(** Creates over REST and over the channel, an update and a delete, served
    from the in-memory list. *)
Definition trace : list event :=
  [HttpPost (Some hi) 10 10 gen;
   OnSendMessage 1 (Some hi) 12 13 gen';
   HttpPut "m-9" (Some new_text) 13;
   HttpPost (Some hi) 13 14 {| insertedId := 0x65a1b2c3d4e5f60718293a4d%N;
                        uuidv4 := "m-11" |};
   HttpDelete "m-10";
   HttpGet].

End Sample.

(** * Properties *)

(** ** Lists *)

Section list_find_facts.
Context {A : Type} (P : A -> Prop) `{!forall x, Decision (P x)}.

Lemma list_find_split (l : list A) (i : nat) (x : A) :
  list_find P l = Some (i, x) ->
  exists l1 l2,
    l = l1 ++ x :: l2 /\ length l1 = i /\ Forall (fun y => ~ P y) l1 /\ P x.
Proof.
  intros (Hi & HP & Hleast)%list_find_Some.
  exists (take i l), (drop (S i) l).
  pose proof (lookup_lt_Some _ _ _ Hi) as Hlt.
  split_and!; [by rewrite take_drop_middle | rewrite length_take; lia | | done].
  apply Forall_lookup. intros j y Hj.
  apply lookup_take_Some in Hj as [Hj ?]. by eapply Hleast.
Qed.

Lemma list_find_is_Some (l : list A) :
  Exists P l -> is_Some (list_find P l).
Proof.
  intros (x & Hx & HP)%Exists_exists. by eapply list_find_elem_of.
Qed.

Lemma list_find_not_Exists (l : list A) :
  ~ Exists P l -> list_find P l = None.
Proof.
  intros Hn. apply list_find_None, Forall_forall. intros x Hx HP.
  apply Hn, Exists_exists. eauto.
Qed.

Lemma insert_at_split (l1 l2 : list A) (x y : A) :
  <[length l1 := y]> (l1 ++ x :: l2) = l1 ++ y :: l2.
Proof.
  replace (length l1) with (length l1 + 0)%nat by lia.
  by rewrite insert_app_r.
Qed.
End list_find_facts.

(** ** Values *)

Lemma missing_absent (o : gmap string jsval) (k : string) :
  o !! k = None -> missing o k.
Proof. unfold missing, field. by intros ->. Qed.


Lemma truthy_nonempty_string (o : gmap string jsval) (k a : string) :
  o !! k = Some (JStr a) -> a <> "" -> truthy (field o k) = true.
Proof.
  unfold field. intros -> Ha. simpl.
  destruct (String.eqb_spec a ""); [done | reflexivity].
Qed.

(** ** The adapter on the in-memory list *)

Lemma present_fallback (s : state) (messageId : jsval) :
  db s = None -> present s messageId <-> Exists (id_is messageId) (messages s).
Proof. unfold present. by intros ->. Qed.

Lemma deleteMessage_fallback_found (s : state) (messageId : jsval) :
  db s = None -> Exists (id_is messageId) (messages s) ->
  exists l1 m l2,
    messages s = l1 ++ m :: l2 /\ Forall (fun x => ~ id_is messageId x) l1 /\
    id_is messageId m /\
    deleteMessage s messageId = Ok (set_messages (l1 ++ l2) s, true).
Proof.
  intros Hdb Hex. unfold deleteMessage. rewrite Hdb.
  destruct (list_find_is_Some _ _ Hex) as [[i m] Hfind]. rewrite Hfind.
  destruct (list_find_split _ _ _ _ Hfind) as (l1 & l2 & Hl & Hlen & Hl1 & Hm).
  exists l1, m, l2. split_and!; [done..|].
  by rewrite Hl at 1; rewrite <- Hlen, delete_middle.
Qed.

Lemma updateMessage_fallback_found (s : state) (messageId ct : jsval) (now : Z) :
  db s = None -> Exists (id_is messageId) (messages s) ->
  exists l1 m l2,
    messages s = l1 ++ m :: l2 /\ Forall (fun x => ~ id_is messageId x) l1 /\
    id_is messageId m /\
    updateMessage s messageId ct now =
      Ok (set_messages (l1 ++ set_content ct now m :: l2) s, true).
Proof.
  intros Hdb Hex. unfold updateMessage. rewrite Hdb.
  destruct (list_find_is_Some _ _ Hex) as [[i m] Hfind]. rewrite Hfind.
  destruct (list_find_split _ _ _ _ Hfind) as (l1 & l2 & Hl & Hlen & Hl1 & Hm).
  exists l1, m, l2. split_and!; [done..|].
  by rewrite Hl at 1; rewrite <- Hlen, insert_at_split.
Qed.

Lemma updateMessage_fallback_absent (s : state) (messageId ct : jsval) (now : Z) :
  db s = None -> ~ Exists (id_is messageId) (messages s) ->
  updateMessage s messageId ct now = Ok (s, false).
Proof.
  intros Hdb Hn. unfold updateMessage. rewrite Hdb.
  by rewrite (list_find_not_Exists _ _ Hn).
Qed.

Lemma deleteMessage_fallback_absent (s : state) (messageId : jsval) :
  db s = None -> ~ Exists (id_is messageId) (messages s) ->
  deleteMessage s messageId = Ok (s, false).
Proof.
  intros Hdb Hn. unfold deleteMessage. rewrite Hdb.
  by rewrite (list_find_not_Exists _ _ Hn).
Qed.

(** ** The adapter on the collection *)

Lemma set_db_same (s : state) (c : list message) : db s = Some c -> set_db c s = s.
Proof. destruct s as [d l]. simpl. by intros ->. Qed.

Lemma set_content_same (ct : jsval) (now : Z) (m : message) :
  set_content ct now m = m <-> content m = ct /\ updatedAt m = Some now.
Proof.
  destruct m as [i sd c cv ts cr up]. unfold set_content. simpl. split.
  - by intros [= -> ->].
  - by intros [-> ->].
Qed.

Lemma present_durable (s : state) (c : list message) (messageId : jsval) :
  db s = Some c ->
  present s messageId <->
  exists o, ObjectId.new messageId = Ok (Some o) /\ Exists (Mongo.has_oid o) c.
Proof. unfold present. by intros ->. Qed.

Lemma updateMessage_durable_throws (s : state) (c : list message)
    (messageId ct : jsval) (now : Z) (e : exn) :
  db s = Some c -> ObjectId.new messageId = Throw e ->
  updateMessage s messageId ct now = Throw e.
Proof. intros Hdb Hnew. unfold updateMessage. by rewrite Hdb, Hnew. Qed.

Lemma deleteMessage_durable_throws (s : state) (c : list message)
    (messageId : jsval) (e : exn) :
  db s = Some c -> ObjectId.new messageId = Throw e ->
  deleteMessage s messageId = Throw e.
Proof. intros Hdb Hnew. unfold deleteMessage. by rewrite Hdb, Hnew. Qed.

Lemma updateMessage_durable_absent (s : state) (c : list message)
    (messageId ct : jsval) (now : Z) (oo : option N) :
  db s = Some c -> ObjectId.new messageId = Ok oo -> ~ present s messageId ->
  updateMessage s messageId ct now = Ok (s, false).
Proof.
  intros Hdb Hnew Hn. unfold updateMessage. rewrite Hdb, Hnew. simpl.
  destruct oo as [o|]; [|done].
  unfold Mongo.updateOne. rewrite list_find_not_Exists.
  - simpl. by rewrite set_db_same.
  - intros Hex. apply Hn, (present_durable _ c); eauto.
Qed.

Lemma deleteMessage_durable_absent (s : state) (c : list message)
    (messageId : jsval) (oo : option N) :
  db s = Some c -> ObjectId.new messageId = Ok oo -> ~ present s messageId ->
  deleteMessage s messageId = Ok (s, false).
Proof.
  intros Hdb Hnew Hn. unfold deleteMessage. rewrite Hdb, Hnew. simpl.
  destruct oo as [o|]; [|done].
  unfold Mongo.deleteOne. rewrite list_find_not_Exists.
  - simpl. by rewrite set_db_same.
  - intros Hex. apply Hn, (present_durable _ c); eauto.
Qed.

(** The driver reports a modification exactly when the [$set] changes the
    matched document; the adapter returns that report. *)
Lemma updateMessage_durable_found (s : state) (c : list message)
    (messageId ct : jsval) (now : Z) (o : N) :
  db s = Some c -> ObjectId.new messageId = Ok (Some o) ->
  Exists (Mongo.has_oid o) c ->
  exists l1 m l2,
    c = l1 ++ m :: l2 /\ Forall (fun x => ~ Mongo.has_oid o x) l1 /\
    Mongo.has_oid o m /\
    updateMessage s messageId ct now =
      Ok (set_db (l1 ++ set_content ct now m :: l2) s,
          bool_decide (set_content ct now m <> m)).
Proof.
  intros Hdb Hnew Hex. unfold updateMessage. rewrite Hdb, Hnew. simpl.
  unfold Mongo.updateOne.
  destruct (list_find_is_Some _ _ Hex) as [[i m] Hfind]. rewrite Hfind.
  destruct (list_find_split _ _ _ _ Hfind) as (l1 & l2 & Hl & Hlen & Hl1 & Hm).
  exists l1, m, l2. split_and!; [done..|]. simpl.
  rewrite Hl at 1. rewrite <- Hlen, insert_at_split. do 2 f_equal.
  destruct (decide (set_content ct now m = m)) as [Heq|Hne].
  - rewrite (bool_decide_eq_false_2 (set_content ct now m <> m)); [|by auto].
    apply bool_decide_eq_false_2. lia.
  - rewrite (bool_decide_eq_true_2 (set_content ct now m <> m)); [|done].
    apply bool_decide_eq_true_2. lia.
Qed.

Lemma deleteMessage_durable_found (s : state) (c : list message)
    (messageId : jsval) (o : N) :
  db s = Some c -> ObjectId.new messageId = Ok (Some o) ->
  Exists (Mongo.has_oid o) c ->
  exists l1 m l2,
    c = l1 ++ m :: l2 /\ Forall (fun x => ~ Mongo.has_oid o x) l1 /\
    Mongo.has_oid o m /\
    deleteMessage s messageId = Ok (set_db (l1 ++ l2) s, true).
Proof.
  intros Hdb Hnew Hex. unfold deleteMessage. rewrite Hdb, Hnew. simpl.
  unfold Mongo.deleteOne.
  destruct (list_find_is_Some _ _ Hex) as [[i m] Hfind]. rewrite Hfind.
  destruct (list_find_split _ _ _ _ Hfind) as (l1 & l2 & Hl & Hlen & Hl1 & Hm).
  exists l1, m, l2. split_and!; [done..|]. simpl.
  by rewrite Hl at 1; rewrite <- Hlen, delete_middle.
Qed.

(** ** Deleting from the in-memory list *)

(** C10.  On the in-memory fallback, deleting an identifier carried by some
    message of the list removes exactly the first message with that [_id]:
    the call returns [true], the list loses one element, and the messages
    before and after the removed one are left as they were, in the same
    order. *)
Theorem deleteMessage_fallback_removes_first (s : state) (messageId : jsval) :
  db s = None -> present s messageId ->
  exists s',
    deleteMessage s messageId = Ok (s', true) /\ db s' = None /\
    removed (id_is messageId) (messages s) (messages s') /\
    S (length (messages s')) = length (messages s).
Proof.
  intros Hdb Hp. apply (present_fallback _ _ Hdb) in Hp.
  destruct (deleteMessage_fallback_found _ _ Hdb Hp)
    as (l1 & m & l2 & Hl & Hl1 & Hm & Hdel).
  eexists. split; [exact Hdel|]. simpl. split; [done|]. split.
  - by exists l1, m, l2.
  - rewrite Hl, !length_app. simpl. lia.
Qed.

Lemma deleteMessage_fallback_removes_first_witness :
  exists s',
    deleteMessage Sample.memory (JStr "m-2") = Ok (s', true) /\ db s' = None /\
    removed (id_is (JStr "m-2")) (messages Sample.memory) (messages s') /\
    S (length (messages s')) = length (messages Sample.memory).
Proof.
  apply (deleteMessage_fallback_removes_first Sample.memory (JStr "m-2")).
  - reflexivity.
  - unfold present. simpl. apply Exists_cons_tl, Exists_cons_hd. reflexivity.
Defined.

(** ** Validation of a create request *)




(** ** A successful create *)

(** C7.  A POST with a [senderId] and a [content] that are present and not
    empty, and without [conversationId], stores a message carrying that
    [senderId] and [content] with [conversationId] equal to ["general"]; the
    stored message is first broadcast as [newMessage] to every connection and
    then returned as the body of a 201 response. *)
Theorem post_creates_and_broadcasts (s : state) (body : gmap string jsval)
    (now1 now2 : Z) (g : idgen) :
  truthy (field body "senderId") = true ->
  truthy (field body "content") = true ->
  body !! "conversationId" = None ->
  exists s' saved,
    Rest.post_messages s (Some body) now1 now2 g =
      (s', [IoEmit "newMessage" (PMessage saved); Respond 201 (PMessage saved)]) /\
    stored s' = stored s ++ [saved] /\
    senderId saved = field body "senderId" /\
    content saved = field body "content" /\
    conversationId saved = JStr "general".
Proof.
  intros Hs Hc Hconv. unfold Rest.post_messages. cbn [destructure bind].
  rewrite Hs, Hc. simpl.
  unfold field at 3. rewrite Hconv. simpl.
  unfold saveMessage, stored.
  destruct (db s) as [c|] eqn:Hdb; simpl; do 2 eexists;
    (split; [reflexivity|]); simpl; rewrite ?Hdb; done.
Qed.

Lemma post_creates_and_broadcasts_witness :
  exists s' saved,
    Rest.post_messages Sample.memory (Some Sample.hi) 50 50 Sample.gen =
      (s', [IoEmit "newMessage" (PMessage saved); Respond 201 (PMessage saved)]) /\
    stored s' = stored Sample.memory ++ [saved] /\
    senderId saved = field Sample.hi "senderId" /\
    content saved = field Sample.hi "content" /\
    conversationId saved = JStr "general".
Proof.
  apply (post_creates_and_broadcasts Sample.memory Sample.hi 50 50 Sample.gen);
    reflexivity.
Defined.

(** ** A delete event without identifier *)

(** C8.  An inbound [deleteMessage] event whose payload carries no message
    identifier (the handler reads it from the field [messageId]) produces one
    [error] event, sent to the originating connection only; nothing is
    broadcast and the state, hence the stored list, is unchanged. *)
Theorem deleteMessage_event_without_id (s : state) (socket : nat)
    (data : option (gmap string jsval)) :
  lacks_id data ->
  let '(s', effs) := Socket.on_deleteMessage s socket data in
  (exists p, unicasts effs = [(socket, "error", p)]) /\
  broadcasts effs = [] /\ s' = s /\ stored s' = stored s.
Proof.
  unfold lacks_id, missing, Socket.on_deleteMessage.
  destruct data as [o|]; simpl.
  - intros ->. simpl. eauto.
  - intros _. eauto.
Qed.

Lemma deleteMessage_event_without_id_witness :
  let '(s', effs) := Socket.on_deleteMessage Sample.memory 7 (Some ∅) in
  (exists p, unicasts effs = [(7%nat, "error", p)]) /\
  broadcasts effs = [] /\ s' = Sample.memory /\ stored s' = stored Sample.memory.
Proof.
  apply (deleteMessage_event_without_id Sample.memory 7 (Some ∅)).
  apply missing_absent. reflexivity.
Defined.

(** The handler takes the identifier from the field [messageId] and from no
    other: a payload that names a stored message under [id] is turned down
    and changes nothing, one that names it under [messageId] deletes it. *)
Lemma deleteMessage_event_reads_messageId :
  Socket.on_deleteMessage Sample.memory 7 (Some {[ "id" := JStr "m-1" ]}) =
    (Sample.memory, [error_event 7 "messageId is required"]) /\
  broadcasts (snd (Socket.on_deleteMessage Sample.memory 7
                     (Some {[ "messageId" := JStr "m-1" ]}))) =
    [("messageDeleted", PObject {[ "messageId" := JStr "m-1" ]})].
Proof. split; reflexivity. Qed.

(** ** Identifiers the durable store cannot parse *)

Lemma ObjectId_new_invalid (id : string) :
  ObjectId.of_string id = None -> ObjectId.new (JStr id) = Throw BSONError.
Proof. unfold ObjectId.new. by intros ->. Qed.

Lemma ObjectId_new_valid (id : string) (o : N) :
  ObjectId.of_string id = Some o -> ObjectId.new (JStr id) = Ok (Some o).
Proof. unfold ObjectId.new. by intros ->. Qed.

(** C9, as stated, fails: with the durable backend active and an identifier
    that is no ObjectId string, a PUT whose body has no [content] is answered
    400 by the validation that precedes the storage call, not 500. *)
Lemma put_invalid_id_without_content_is_400 :
  db Sample.durable = Some (stored Sample.durable) /\
  ObjectId.of_string "abc" = None /\
  status (snd (Rest.put_messages_id Sample.durable "abc" (Some ∅) 50)) = Some 400%nat /\
  status (snd (Rest.put_messages_id Sample.durable "abc" (Some ∅) 50)) <> Some 500%nat.
Proof. split_and!; [reflexivity..|]. vm_compute. discriminate. Qed.

(** C9, amended.  With the durable backend active and an identifier that is
    not a valid ObjectId string, the ObjectId constructor throws: a DELETE,
    and a PUT whose body supplies [content], are answered 500 with the
    generic storage-error body, never 404; the state is unchanged and nothing
    is broadcast. *)
Theorem invalid_ObjectId_is_500 (s : state) (c : list message) (id : string)
    (body : gmap string jsval) (now : Z) :
  db s = Some c -> ObjectId.of_string id = None ->
  truthy (field body "content") = true ->
  ObjectId.new (JStr id) = Throw BSONError /\
  Rest.put_messages_id s id (Some body) now =
    (s, [Respond 500 (error_body "Failed to update message")]) /\
  Rest.delete_messages_id s id =
    (s, [Respond 500 (error_body "Failed to delete message")]).
Proof.
  intros Hdb Hid Hct. pose proof (ObjectId_new_invalid _ Hid) as Hnew.
  split; [done|]. split.
  - unfold Rest.put_messages_id. cbn [destructure bind]. rewrite Hct. simpl.
    by rewrite (updateMessage_durable_throws _ _ _ _ _ _ Hdb Hnew).
  - unfold Rest.delete_messages_id.
    by rewrite (deleteMessage_durable_throws _ _ _ _ Hdb Hnew).
Qed.

Lemma invalid_ObjectId_is_500_witness :
  ObjectId.new (JStr "abc") = Throw BSONError /\
  Rest.put_messages_id Sample.durable "abc" (Some Sample.new_text) 50 =
    (Sample.durable, [Respond 500 (error_body "Failed to update message")]) /\
  Rest.delete_messages_id Sample.durable "abc" =
    (Sample.durable, [Respond 500 (error_body "Failed to delete message")]).
Proof.
  apply (invalid_ObjectId_is_500 Sample.durable (stored Sample.durable) "abc"
           Sample.new_text 50); reflexivity.
Defined.

(** ** Identifiers that are not stored *)

(** C5, as stated, fails: on the durable backend the identifier ["abc"] is
    carried by no document, and a DELETE of it is answered 500, not 404. *)
Lemma delete_unknown_invalid_id_is_500 :
  ~ present Sample.durable (JStr "abc") /\
  status (snd (Rest.delete_messages_id Sample.durable "abc")) = Some 500%nat /\
  status (snd (Rest.delete_messages_id Sample.durable "abc")) <> Some 404%nat.
Proof.
  split_and!.
  - intros (o & Hnew & _). vm_compute in Hnew. discriminate.
  - reflexivity.
  - vm_compute. discriminate.
Qed.

(** C5, amended.  For an identifier carried by no message of the active
    backend, a PUT that supplies [content] and a DELETE leave the state
    unchanged and broadcast nothing; they are answered 404 on the in-memory
    fallback, and on the durable backend when the identifier is a valid
    ObjectId string; on the durable backend an identifier that is not one is
    answered 500. *)
Theorem unknown_id_rejected (s : state) (id : string)
    (body : gmap string jsval) (now : Z) :
  ~ present s (JStr id) -> truthy (field body "content") = true ->
  exists st b1 b2,
    Rest.put_messages_id s id (Some body) now = (s, [Respond st b1]) /\
    Rest.delete_messages_id s id = (s, [Respond st b2]) /\
    (db s = None \/ is_Some (ObjectId.of_string id) -> st = 404%nat) /\
    (is_Some (db s) /\ ObjectId.of_string id = None -> st = 500%nat).
Proof.
  intros Hn Hct. unfold Rest.put_messages_id, Rest.delete_messages_id.
  cbn [destructure bind].
  rewrite Hct. simpl.
  destruct (db s) as [c|] eqn:Hdb.
  - destruct (ObjectId.of_string id) as [o|] eqn:Hid.
    + pose proof (ObjectId_new_valid _ _ Hid) as Hnew.
      rewrite (updateMessage_durable_absent _ _ _ _ _ _ Hdb Hnew Hn).
      rewrite (deleteMessage_durable_absent _ _ _ _ Hdb Hnew Hn). simpl.
      do 3 eexists. split_and!; [reflexivity..|done|].
      by intros [_ [=]].
    + pose proof (ObjectId_new_invalid _ Hid) as Hnew.
      rewrite (updateMessage_durable_throws _ _ _ _ _ _ Hdb Hnew).
      rewrite (deleteMessage_durable_throws _ _ _ _ Hdb Hnew). simpl.
      do 3 eexists. split_and!; [reflexivity..| |done].
      intros [[=]|[? [=]]].
  - rewrite present_fallback in Hn by done.
    rewrite (updateMessage_fallback_absent _ _ _ _ Hdb Hn).
    rewrite (deleteMessage_fallback_absent _ _ Hdb Hn). simpl.
    do 3 eexists. split_and!; [reflexivity..|done|].
    by intros [[? [=]] _].
Qed.

Lemma unknown_id_rejected_witness :
  exists st b1 b2,
    Rest.put_messages_id Sample.memory "m-7" (Some Sample.new_text) 50 =
      (Sample.memory, [Respond st b1]) /\
    Rest.delete_messages_id Sample.memory "m-7" = (Sample.memory, [Respond st b2]) /\
    (db Sample.memory = None \/ is_Some (ObjectId.of_string "m-7") -> st = 404%nat) /\
    (is_Some (db Sample.memory) /\ ObjectId.of_string "m-7" = None -> st = 500%nat).
Proof.
  apply (unknown_id_rejected Sample.memory "m-7" Sample.new_text 50).
  - unfold present. simpl. rewrite !Exists_cons, Exists_nil.
    unfold id_is. simpl. intros [H|[H|[H|[]]]]; vm_compute in H; discriminate.
  - reflexivity.
Defined.

(** ** What a successful update or delete broadcasts *)

(** C3, as stated, fails: a successful PUT broadcasts a payload with no
    field [id]; the identifier travels in the field [messageId]. *)
Lemma put_broadcast_has_no_id_field :
  let effs := snd (Rest.put_messages_id Sample.memory "m-1" (Some Sample.new_text) 50) in
  status effs = Some 200%nat /\
  broadcasts effs <>
    [("messageUpdated", PObject {[ "id" := JStr "m-1"; "content" := JStr "x" ]})].
Proof.
  intros effs. split; [reflexivity|].
  change (broadcasts effs) with
    [("messageUpdated",
      PObject {[ "messageId" := JStr "m-1"; "content" := JStr "x" ]})].
  intros H. assert (Hid :
    ({[ "messageId" := JStr "m-1"; "content" := JStr "x" ]} : gmap string jsval)
      !! "id" =
    ({[ "id" := JStr "m-1"; "content" := JStr "x" ]} : gmap string jsval) !! "id")
    by congruence.
  vm_compute in Hid. discriminate.
Qed.

(** C3, amended.  A successful REST update of message [id] to content [C]
    broadcasts exactly one event, [messageUpdated], with payload
    [{messageId: id, content: C}]; a successful REST delete of message [id]
    broadcasts exactly one event, [messageDeleted], with payload
    [{messageId: id}].  The identifier field is named [messageId]. *)
Theorem rest_success_broadcasts (s : state) (id : string)
    (body : gmap string jsval) (now : Z) :
  (status (snd (Rest.put_messages_id s id (Some body) now)) = Some 200%nat ->
   broadcasts (snd (Rest.put_messages_id s id (Some body) now)) =
     [("messageUpdated",
       PObject {[ "messageId" := JStr id; "content" := field body "content" ]})]) /\
  (status (snd (Rest.delete_messages_id s id)) = Some 200%nat ->
   broadcasts (snd (Rest.delete_messages_id s id)) =
     [("messageDeleted", PObject {[ "messageId" := JStr id ]})]).
Proof.
  split.
  - unfold Rest.put_messages_id. cbn [destructure bind].
    destruct (truthy (field body "content")); simpl; [|discriminate].
    destruct (updateMessage s (JStr id) (field body "content") now)
      as [[s' [|]]|e]; simpl; [done|discriminate..].
  - unfold Rest.delete_messages_id.
    destruct (deleteMessage s (JStr id)) as [[s' [|]]|e]; simpl;
      [done|discriminate..].
Qed.

Lemma rest_success_broadcasts_witness :
  broadcasts (snd (Rest.put_messages_id Sample.memory "m-1" (Some Sample.new_text) 50)) =
    [("messageUpdated",
      PObject {[ "messageId" := JStr "m-1";
                 "content" := field Sample.new_text "content" ]})] /\
  broadcasts (snd (Rest.delete_messages_id Sample.memory "m-1")) =
    [("messageDeleted", PObject {[ "messageId" := JStr "m-1" ]})].
Proof.
  split.
  - apply (proj1 (rest_success_broadcasts Sample.memory "m-1" Sample.new_text 50)).
    reflexivity.
  - apply (proj2 (rest_success_broadcasts Sample.memory "m-1" Sample.new_text 50)).
    reflexivity.
Defined.

(** ** The result of an update *)

(** C1, as stated, fails: on the durable backend no document has the
    identifier ["abc"], yet the update does not return [false]: the ObjectId
    constructor throws and the call returns nothing. *)
Lemma updateMessage_invalid_id_returns_nothing :
  ~ present Sample.durable (JStr "abc") /\
  updateMessage Sample.durable (JStr "abc") (JStr "x") 50 = Throw BSONError /\
  ~ exists s' (b : bool),
      updateMessage Sample.durable (JStr "abc") (JStr "x") 50 = Ok (s', b) /\
      (b = true <-> present Sample.durable (JStr "abc")).
Proof.
  split_and!.
  - intros (o & Hnew & _). vm_compute in Hnew. discriminate.
  - reflexivity.
  - intros (s' & b & H & _). vm_compute in H. discriminate.
Qed.

(** On the durable backend the adapter returns the driver's [modifiedCount];
    a second update with the same content within the same millisecond leaves
    the document as it is and is reported as [false], the message being
    stored. *)
Lemma updateMessage_durable_same_millisecond :
  let id := JStr "507f1f77bcf86cd799439011" in
  exists s1,
    updateMessage Sample.durable id (JStr "x") 50 = Ok (s1, true) /\
    present s1 id /\
    updateMessage s1 id (JStr "x") 50 = Ok (s1, false).
Proof.
  eexists. split; [vm_compute; reflexivity|]. split; [|vm_compute; reflexivity].
  exists Sample.oid1. split; [vm_compute; reflexivity|].
  apply Exists_cons_hd. reflexivity.
Qed.

(** C1, amended.  On the in-memory fallback, [updateMessage] returns [true]
    if and only if a message with that id exists; a match has its content
    replaced and its [updatedAt] set, whatever its current content, and no
    match leaves the state as it is.  On the durable backend, an id that the
    ObjectId constructor rejects makes the call throw; an id carried by no
    document returns [false] and leaves the state as it is; an id carried by
    a document whose content differs from the new one, or whose [updatedAt]
    differs from the time of the update, returns [true], with the content
    replaced and [updatedAt] set. *)
Theorem updateMessage_result (s : state) (messageId ct : jsval) (now : Z) :
  (db s = None ->
   exists s' (b : bool),
     updateMessage s messageId ct now = Ok (s', b) /\
     (b = true <-> present s messageId) /\
     (b = true ->
      db s' = None /\
      replaced (id_is messageId) ct now (messages s) (messages s')) /\
     (b = false -> s' = s)) /\
  (forall c, db s = Some c ->
   (forall e, ObjectId.new messageId = Throw e ->
      updateMessage s messageId ct now = Throw e) /\
   (forall oo, ObjectId.new messageId = Ok oo -> ~ present s messageId ->
      updateMessage s messageId ct now = Ok (s, false)) /\
   (forall o, ObjectId.new messageId = Ok (Some o) ->
      Exists (Mongo.has_oid o) c ->
      Forall (fun m => Mongo.has_oid o m ->
                content m <> ct \/ updatedAt m <> Some now) c ->
      exists c',
        updateMessage s messageId ct now = Ok (set_db c' s, true) /\
        replaced (Mongo.has_oid o) ct now c c')).
Proof.
  split.
  - intros Hdb.
    destruct (decide (Exists (id_is messageId) (messages s))) as [Hex|Hn].
    + destruct (updateMessage_fallback_found _ _ ct now Hdb Hex)
        as (l1 & m & l2 & Hl & Hl1 & Hm & Hup).
      exists (set_messages (l1 ++ set_content ct now m :: l2) s), true.
      split_and!; [done| |intros _|done].
      * by rewrite present_fallback.
      * split; [done|]. by exists l1, m, l2.
    + exists s, false.
      split_and!; [by apply updateMessage_fallback_absent| |done..].
      rewrite present_fallback by done. naive_solver.
  - intros c Hdb. split_and!.
    + intros e. by apply updateMessage_durable_throws with c.
    + intros oo. by apply updateMessage_durable_absent with c.
    + intros o Hnew Hex Hdiff.
      destruct (updateMessage_durable_found _ _ _ ct now _ Hdb Hnew Hex)
        as (l1 & m & l2 & Hl & Hl1 & Hm & Hup).
      exists (l1 ++ set_content ct now m :: l2). split; [|by exists l1, m, l2].
      rewrite Hup. do 2 f_equal. apply bool_decide_eq_true_2.
      rewrite set_content_same.
      assert (m ∈ c) as Hin by (rewrite Hl; set_solver).
      rewrite Forall_forall in Hdiff. intros [Hc Hu].
      destruct (Hdiff m Hin Hm) as [Hd|Hd]; by apply Hd.
Qed.

Lemma updateMessage_result_witness :
  exists s' (b : bool),
    updateMessage Sample.memory (JStr "m-2") (JStr "two") 50 = Ok (s', b) /\
    (b = true <-> present Sample.memory (JStr "m-2")) /\
    (b = true ->
     db s' = None /\
     replaced (id_is (JStr "m-2")) (JStr "two") 50
       (messages Sample.memory) (messages s')) /\
    (b = false -> s' = Sample.memory).
Proof.
  apply (proj1 (updateMessage_result Sample.memory (JStr "m-2") (JStr "two") 50)).
  reflexivity.
Defined.

(** ** Order of the listing *)

#[global] Instance ts_le_total : Total Mongo.ts_le.
Proof. intros m1 m2. unfold Mongo.ts_le. lia. Qed.

#[global] Instance ts_le_trans : Transitive Mongo.ts_le.
Proof. intros m1 m2 m3. unfold Mongo.ts_le. lia. Qed.


Lemma find_sorted_Permutation (c : list message) : Mongo.find_sorted c ≡ₚ c.
Proof. apply (merge_sort_Permutation Mongo.ts_le). Qed.





















(** The in-memory fallback does not sort: were the clock to step back
    between two creates, the listing would show them in insertion order. *)
Lemma fallback_lists_in_insertion_order :
  timestamp <$> getMessages
    (run initial [HttpPost (Some Sample.hi) 10 10 Sample.gen;
                  HttpPost (Some Sample.hi) 5 5 Sample.gen']) = [10; 5].
Proof. reflexivity. Qed.

(** ** Identifiers in hexadecimal *)

Lemma hex_digit_hex_char (d : N) :
  (d < 16)%N -> ObjectId.hex_digit (ObjectId.hex_char d) = Some d.
Proof.
  intros Hd.
  assert (d = 0 \/ d = 1 \/ d = 2 \/ d = 3 \/ d = 4 \/ d = 5 \/ d = 6 \/ d = 7 \/
          d = 8 \/ d = 9 \/ d = 10 \/ d = 11 \/ d = 12 \/ d = 13 \/ d = 14 \/
          d = 15)%N as Hcases by lia.
  repeat (destruct Hcases as [->|Hcases]; [reflexivity|]).
  by subst.
Qed.

Lemma length_hex_digits (k : nat) (o : N) (acc : string) :
  String.length (ObjectId.hex_digits k o acc) = (k + String.length acc)%nat.
Proof.
  revert o acc. induction k as [|k IH]; intros o acc; simpl; [done|].
  rewrite IH. simpl. lia.
Qed.

Lemma hex_value_hex_digits (k : nat) (o a : N) (acc : string) :
  ObjectId.hex_value a (ObjectId.hex_digits k o acc) =
  ObjectId.hex_value (a * 16 ^ N.of_nat k + o mod 16 ^ N.of_nat k)%N acc.
Proof.
  revert o a acc. induction k as [|k IH]; intros o a acc.
  - simpl. f_equal. rewrite N.mod_1_r. lia.
  - cbn [ObjectId.hex_digits]. rewrite IH. cbn [ObjectId.hex_value].
    rewrite hex_digit_hex_char by (apply N.mod_lt; lia).
    f_equal. rewrite Nat2N.inj_succ, N.pow_succ_r'.
    rewrite (N.Div0.mod_mul_r o 16 (16 ^ N.of_nat k)). lia.
Qed.

(** An identifier read from a JSON body and sent back denotes the same
    [ObjectId]. *)
Lemma of_string_toHexString (o : N) :
  (o < 2 ^ 96)%N -> ObjectId.of_string (ObjectId.toHexString o) = Some o.
Proof.
  intros Ho. unfold ObjectId.of_string, ObjectId.toHexString.
  rewrite length_hex_digits. simpl String.length. simpl Nat.eqb.
  rewrite hex_value_hex_digits. simpl ObjectId.hex_value. f_equal.
  change (16 ^ N.of_nat 24)%N with (2 ^ 96)%N.
  rewrite N.mod_small by done. lia.
Qed.

(** ** Create, update, list *)

Lemma first_match_last {A : Type} (P : A -> Prop) (l l1 l2 : list A) (x m : A) :
  Forall (fun y => ~ P y) l -> l ++ [x] = l1 ++ m :: l2 -> P m ->
  l1 = l /\ m = x /\ l2 = [].
Proof.
  intros Hl Heq Hm. destruct l2 as [|y l2 _] using rev_ind.
  - apply app_inj_tail in Heq as [-> ->]. done.
  - rewrite app_comm_cons, app_assoc in Heq.
    apply app_inj_tail in Heq as [-> _].
    rewrite Forall_app, Forall_cons in Hl. by destruct Hl as (_ & Hnm & _).
Qed.

Lemma id_is_uuid (u : string) (m : message) :
  id_is (JStr u) m <-> _id m = Some (Uuid u).
Proof.
  unfold id_is, strict_eq_id. destruct (_id m) as [[u'|o]|]; simpl.
  - rewrite bool_decide_eq_true. split; [by intros ->|by intros [= ->]].
  - split; intros; discriminate.
  - split; intros; discriminate.
Qed.

(** C6, as stated, fails: a message created when the clock read 50 and
    updated when it read 40 is listed with the new content and with an
    [updatedAt] of 40, earlier than its [createdAt]. *)
Lemma updatedAt_before_createdAt :
  let created := new_message (JStr "u1") (JStr "hi") JUndefined 50 50 in
  let s1 := fst (saveMessage initial created Sample.gen) in
  exists s2 m,
    updateMessage s1 (JStr "m-9") (JStr "x") 40 = Ok (s2, true) /\
    getMessages s2 = [m] /\ content m = JStr "x" /\
    createdAt m = 50 /\ updatedAt m = Some 40 /\
    ~ exists u, updatedAt m = Some u /\ createdAt m <= u.
Proof.
  intros created s1. do 2 eexists. split_and!; [reflexivity..|].
  intros (u & [= <-] & Hle). simpl in Hle. lia.
Qed.

(** C6, amended.  A message created through the adapter, then updated to
    content [c2] under the identifier it was given, is returned by the next
    listing with content [c2] and with [updatedAt] present: it is the
    reading of the clock taken by the update, and so is not earlier than
    [createdAt] exactly when the clock has not stepped back below
    [createdAt] since the creation.  The listed message is the only one
    with that identifier.  The message is created without [updatedAt], as
    both handlers build it, and the generated identifier is unique among
    the stored ones. *)
Theorem create_update_list (s : state) (msg : message) (g : idgen)
    (c2 : jsval) (now : Z) :
  updatedAt msg = None -> fresh g s -> (insertedId g < 2 ^ 96)%N ->
  exists s1 saved i s2 m,
    saveMessage s msg g = (s1, saved) /\ _id saved = Some i /\
    updateMessage s1 (id_json i) c2 now = Ok (s2, true) /\
    m ∈ getMessages s2 /\
    (forall m', m' ∈ getMessages s2 -> _id m' = Some i -> m' = m) /\
    m = set_content c2 now saved /\ content m = c2 /\
    updatedAt m = Some now /\ createdAt m = createdAt msg /\
    (createdAt msg <= now <->
     exists u, updatedAt m = Some u /\ createdAt m <= u).
Proof.
  intros Hnew Hfresh Hbound. unfold fresh in Hfresh.
  assert (forall saved, createdAt saved = createdAt msg ->
            createdAt msg <= now <->
            exists u, updatedAt (set_content c2 now saved) = Some u /\
                      createdAt (set_content c2 now saved) <= u) as Hdates.
  { intros saved Hc. simpl. rewrite Hc. split.
    - intros Hle. by exists now.
    - by intros (u & [= <-] & Hle). }
  unfold saveMessage. destruct (db s) as [c|] eqn:Hdb.
  - set (saved := with_id (Oid (insertedId g)) msg).
    set (s1 := set_db (Mongo.insertOne c msg (insertedId g)) s).
    assert (ObjectId.new (id_json (Oid (insertedId g)))
            = Ok (Some (insertedId g))) as Hparse.
    { apply ObjectId_new_valid, of_string_toHexString, Hbound. }
    assert (Exists (Mongo.has_oid (insertedId g)) (c ++ [saved])) as Hex.
    { apply Exists_app. right. by apply Exists_cons_hd. }
    destruct (updateMessage_durable_found s1 (c ++ [saved]) _ c2 now _
                eq_refl Hparse Hex) as (l1 & m & l2 & Hl & _ & Hm & Hup).
    destruct (first_match_last (Mongo.has_oid (insertedId g)) _ _ _ _ _
                Hfresh Hl Hm) as (-> & -> & ->).
    rewrite (bool_decide_eq_true_2 (set_content c2 now saved <> saved)) in Hup.
    2:{ rewrite set_content_same. intros [_ Hu]. simpl in Hu. congruence. }
    exists s1, saved, (Oid (insertedId g)),
      (set_db (c ++ [set_content c2 now saved]) s1), (set_content c2 now saved).
    split_and!.
    1-2: reflexivity. 1: exact Hup. 3-6: reflexivity. 3: by apply Hdates.
    + unfold getMessages. cbn [db set_db s1].
      rewrite find_sorted_Permutation.
      apply elem_of_app. right. by apply list_elem_of_singleton.
    + unfold getMessages. cbn [db set_db s1]. intros m'.
      rewrite find_sorted_Permutation, elem_of_app, list_elem_of_singleton.
      intros [Hin| ->] Hid; [|done].
      rewrite Forall_forall in Hfresh. by destruct (Hfresh m' Hin).
  - set (saved := with_id (Uuid (uuidv4 g)) msg).
    set (s1 := set_messages (messages s ++ [saved]) s).
    assert (Forall (fun y => ~ id_is (JStr (uuidv4 g)) y) (messages s)) as Hno.
    { eapply Forall_impl; [exact Hfresh|]. intros y Hy. by rewrite id_is_uuid. }
    assert (Exists (id_is (JStr (uuidv4 g))) (messages s1)) as Hex.
    { apply Exists_app. right. apply Exists_cons_hd. by apply id_is_uuid. }
    destruct (updateMessage_fallback_found s1 (JStr (uuidv4 g)) c2 now Hdb Hex)
      as (l1 & m & l2 & Hl & _ & Hm & Hup).
    destruct (first_match_last _ _ _ _ _ _ Hno Hl Hm) as (-> & -> & ->).
    exists s1, saved, (Uuid (uuidv4 g)),
      (set_messages (messages s ++ [set_content c2 now saved]) s1),
      (set_content c2 now saved).
    split_and!.
    1-2: reflexivity. 1: exact Hup. 3-6: reflexivity. 3: by apply Hdates.
    + unfold getMessages. cbn [db set_messages s1 messages]. rewrite Hdb.
      apply elem_of_app. right. by apply list_elem_of_singleton.
    + unfold getMessages. cbn [db set_messages s1 messages]. rewrite Hdb.
      intros m'. rewrite elem_of_app, list_elem_of_singleton.
      intros [Hin| ->] Hid; [|done].
      rewrite Forall_forall in Hfresh. by destruct (Hfresh m' Hin).
Qed.

Lemma create_update_list_witness :
  exists s1 saved i s2 m,
    saveMessage Sample.durable
      (new_message (JStr "u1") (JStr "hi") JUndefined 50 50) Sample.gen
      = (s1, saved) /\
    _id saved = Some i /\
    updateMessage s1 (id_json i) (JStr "x") 60 = Ok (s2, true) /\
    m ∈ getMessages s2 /\
    (forall m', m' ∈ getMessages s2 -> _id m' = Some i -> m' = m) /\
    m = set_content (JStr "x") 60 saved /\ content m = JStr "x" /\
    updatedAt m = Some 60 /\
    createdAt m =
      createdAt (new_message (JStr "u1") (JStr "hi") JUndefined 50 50) /\
    (createdAt (new_message (JStr "u1") (JStr "hi") JUndefined 50 50) <= 60 <->
     exists u, updatedAt m = Some u /\ createdAt m <= u).
Proof.
  apply (create_update_list Sample.durable
           (new_message (JStr "u1") (JStr "hi") JUndefined 50 50) Sample.gen
           (JStr "x") 60).
  - reflexivity.
  - unfold fresh. simpl. repeat constructor; vm_compute; discriminate.
  - vm_compute. reflexivity.
Defined.

(** * Further properties of the handlers *)

(** ** Creating over REST and over the channel *)

Lemma saveMessage_stored (s : state) (msg : message) (g : idgen) :
  exists i,
    snd (saveMessage s msg g) = with_id i msg /\
    stored (fst (saveMessage s msg g)) = stored s ++ [with_id i msg].
Proof.
  unfold saveMessage, stored. destruct (db s) as [c|] eqn:Hdb; simpl.
  - by exists (Oid (insertedId g)).
  - rewrite Hdb. by exists (Uuid (uuidv4 g)).
Qed.

Lemma elem_of_getMessages (s : state) (m : message) :
  m ∈ getMessages s <-> m ∈ stored s.
Proof.
  unfold getMessages, stored. destruct (db s); [|done].
  by rewrite find_sorted_Permutation.
Qed.

(** X1.  The message returned by a successful POST, identifier included, is
    among the messages returned by a GET that follows it; the GET answers
    200 and leaves the state as it is. *)
Theorem post_then_get (s : state) (body : gmap string jsval)
    (now1 now2 : Z) (g : idgen) :
  truthy (field body "senderId") = true ->
  truthy (field body "content") = true ->
  exists s' saved i l,
    Rest.post_messages s (Some body) now1 now2 g =
      (s', [IoEmit "newMessage" (PMessage saved); Respond 201 (PMessage saved)]) /\
    _id saved = Some i /\
    Rest.get_messages s' = (s', [Respond 200 (PMessages l)]) /\
    saved ∈ l.
Proof.
  intros Hs Hc. unfold Rest.post_messages. cbn [destructure bind].
  rewrite Hs, Hc. simpl.
  destruct (saveMessage_stored s
    (new_message (field body "senderId") (field body "content")
       (field body "conversationId") now1 now2) g) as (i & Hsaved & Hstored).
  destruct (saveMessage s _ g) as [s' saved]. simpl in *. subst saved.
  exists s', (with_id i (new_message (field body "senderId")
    (field body "content") (field body "conversationId") now1 now2)), i,
    (getMessages s').
  split_and!; [done..|].
  rewrite elem_of_getMessages, Hstored. apply elem_of_app. right.
  by apply list_elem_of_singleton.
Qed.

Lemma post_then_get_witness :
  exists s' saved i l,
    Rest.post_messages Sample.durable (Some Sample.hi) 50 51 Sample.gen =
      (s', [IoEmit "newMessage" (PMessage saved); Respond 201 (PMessage saved)]) /\
    _id saved = Some i /\
    Rest.get_messages s' = (s', [Respond 200 (PMessages l)]) /\
    saved ∈ l.
Proof.
  apply (post_then_get Sample.durable Sample.hi 50 51 Sample.gen); reflexivity.
Defined.

(** X2.  A [sendMessage] event and a POST carrying the same fields create
    the same message and reach the same state, and both broadcast it as
    [newMessage]; the channel path sends nothing else.  The message is
    appended to the active backend; its [conversationId] is the one supplied
    when that is truthy and ["general"] otherwise (absent, empty, [null]);
    [timestamp] and [createdAt] are the two clock readings and [updatedAt] is
    absent. *)
Theorem create_paths_agree (s : state) (o : gmap string jsval) (socket : nat)
    (now1 now2 : Z) (g : idgen) :
  truthy (field o "senderId") = true ->
  truthy (field o "content") = true ->
  exists s' saved,
    Rest.post_messages s (Some o) now1 now2 g =
      (s', [IoEmit "newMessage" (PMessage saved); Respond 201 (PMessage saved)]) /\
    Socket.on_sendMessage s socket (Some o) now1 now2 g =
      (s', [IoEmit "newMessage" (PMessage saved)]) /\
    stored s' = stored s ++ [saved] /\
    senderId saved = field o "senderId" /\
    content saved = field o "content" /\
    conversationId saved =
      (if truthy (field o "conversationId") then field o "conversationId"
       else JStr "general") /\
    timestamp saved = now1 /\ createdAt saved = now2 /\ updatedAt saved = None.
Proof.
  intros Hs Hc. unfold Rest.post_messages, Socket.on_sendMessage.
  simpl. rewrite Hs, Hc. simpl.
  destruct (saveMessage_stored s
    (new_message (field o "senderId") (field o "content")
       (field o "conversationId") now1 now2) g) as (i & Hsaved & Hstored).
  destruct (saveMessage s _ g) as [s' saved]. simpl in *. subst saved.
  by do 2 eexists.
Qed.

Lemma create_paths_agree_witness :
  exists s' saved,
    Rest.post_messages Sample.memory
      (Some (<["conversationId" := JStr ""]> Sample.hi)) 50 51 Sample.gen =
      (s', [IoEmit "newMessage" (PMessage saved); Respond 201 (PMessage saved)]) /\
    Socket.on_sendMessage Sample.memory 3
      (Some (<["conversationId" := JStr ""]> Sample.hi)) 50 51 Sample.gen =
      (s', [IoEmit "newMessage" (PMessage saved)]) /\
    stored s' = stored Sample.memory ++ [saved] /\
    senderId saved = field (<["conversationId" := JStr ""]> Sample.hi) "senderId" /\
    content saved = field (<["conversationId" := JStr ""]> Sample.hi) "content" /\
    conversationId saved =
      (if truthy (field (<["conversationId" := JStr ""]> Sample.hi) "conversationId")
       then field (<["conversationId" := JStr ""]> Sample.hi) "conversationId"
       else JStr "general") /\
    timestamp saved = 50 /\ createdAt saved = 51 /\ updatedAt saved = None.
Proof.
  apply (create_paths_agree Sample.memory
           (<["conversationId" := JStr ""]> Sample.hi) 3 50 51 Sample.gen);
    reflexivity.
Defined.

(** ** Requests and events turned down by validation *)

(** X3.  A PUT whose body is an object without [content] is answered 400,
    and a PUT with no body at all is answered 500, whatever the identifier
    and the backend: the adapter is not called, the state is unchanged and
    nothing is emitted besides the response. *)
Theorem put_missing_content_rejected (s : state) (id : string)
    (body : option (gmap string jsval)) (now : Z) :
  (forall o, body = Some o -> missing o "content") ->
  Rest.put_messages_id s id body now =
    (s, [match body with
         | Some _ => Respond 400 (error_body "content is required")
         | None => Respond 500 (error_body "Failed to update message")
         end]).
Proof.
  unfold missing, Rest.put_messages_id. intros Hm.
  destruct body as [o|]; cbn [destructure bind]; [|done].
  by rewrite (Hm o eq_refl).
Qed.

Lemma put_missing_content_rejected_witness :
  Rest.put_messages_id Sample.durable "abc" (Some {[ "content" := JNull ]}) 50 =
    (Sample.durable, [Respond 400 (error_body "content is required")]).
Proof.
  apply (put_missing_content_rejected Sample.durable "abc"
           (Some {[ "content" := JNull ]}) 50).
  intros o [= <-]. reflexivity.
Defined.

(** X4.  A [sendMessage] event without payload, or whose payload lacks
    [senderId] or [content], produces one [error] event for the originating
    connection and nothing else: no broadcast, and the state is unchanged. *)
Theorem on_sendMessage_rejected (s : state) (socket : nat)
    (data : option (gmap string jsval)) (now1 now2 : Z) (g : idgen) :
  (forall o, data = Some o -> missing o "senderId" \/ missing o "content") ->
  exists text,
    Socket.on_sendMessage s socket data now1 now2 g =
      (s, [error_event socket text]).
Proof.
  unfold missing, Socket.on_sendMessage. intros Hm.
  destruct data as [o|]; simpl; [|by eexists].
  destruct (Hm o eq_refl) as [-> | ->]; simpl; [by eexists|].
  rewrite orb_true_r. by eexists.
Qed.

Lemma on_sendMessage_rejected_witness :
  exists text,
    Socket.on_sendMessage Sample.memory 3
      (Some {[ "senderId" := JStr "u1" ]}) 50 51 Sample.gen =
      (Sample.memory, [error_event 3 text]).
Proof.
  apply (on_sendMessage_rejected Sample.memory 3
           (Some {[ "senderId" := JStr "u1" ]}) 50 51 Sample.gen).
  intros o [= <-]. right. reflexivity.
Defined.

(** X5.  An [updateMessage] event without payload, or whose payload lacks
    [messageId] or [content], produces one [error] event for the originating
    connection and nothing else: the adapter is not called, nothing is
    broadcast and the state is unchanged. *)
Theorem on_updateMessage_rejected (s : state) (socket : nat)
    (data : option (gmap string jsval)) (now : Z) :
  (forall o, data = Some o -> missing o "messageId" \/ missing o "content") ->
  exists text,
    Socket.on_updateMessage s socket data now = (s, [error_event socket text]).
Proof.
  unfold missing, Socket.on_updateMessage. intros Hm.
  destruct data as [o|]; simpl; [|by eexists].
  destruct (Hm o eq_refl) as [-> | ->]; simpl; [by eexists|].
  rewrite orb_true_r. by eexists.
Qed.

Lemma on_updateMessage_rejected_witness :
  exists text,
    Socket.on_updateMessage Sample.memory 3
      (Some {[ "id" := JStr "m-1"; "content" := JStr "x" ]}) 50 =
      (Sample.memory, [error_event 3 text]).
Proof.
  apply (on_updateMessage_rejected Sample.memory 3
           (Some {[ "id" := JStr "m-1"; "content" := JStr "x" ]}) 50).
  intros o [= <-]. left. reflexivity.
Defined.

(** ** Deleting, on both backends *)

Lemma present_names (s : state) (messageId : jsval) :
  present s messageId <-> Exists (names s messageId) (stored s).
Proof.
  unfold present, names, stored. destruct (db s) as [c|]; [|done].
  rewrite Exists_exists. split.
  - intros (o & Hnew & (m & Hin & Hm)%Exists_exists). eauto.
  - intros (m & Hin & o & Hnew & Hm). exists o. split; [done|].
    apply Exists_exists. eauto.
Qed.

Lemma names_durable (s : state) (c : list message) (messageId : jsval)
    (o : N) (l : list message) :
  db s = Some c -> ObjectId.new messageId = Ok (Some o) ->
  Forall (fun x => ~ Mongo.has_oid o x) l -> Forall (fun x => ~ names s messageId x) l.
Proof.
  intros Hdb Hnew Hl. eapply Forall_impl; [exact Hl|].
  intros x Hx. unfold names. rewrite Hdb. intros (o' & Hnew' & Hm).
  rewrite Hnew in Hnew'. by simplify_eq.
Qed.

Lemma present_or_not (s : state) (messageId : jsval) :
  present s messageId \/ ~ present s messageId.
Proof.
  unfold present. destruct (db s) as [c|].
  - destruct (ObjectId.new messageId) as [[o|]|e] eqn:Hnew.
    + destruct (decide (Exists (Mongo.has_oid o) c)) as [Hex|Hn].
      * left. eauto.
      * right. intros (o' & [= <-] & Hex). done.
    + right. intros (o' & [=] & _).
    + right. intros (o' & [=] & _).
  - destruct (decide (Exists (id_is messageId) (messages s))); auto.
Qed.

Lemma deleteMessage_present (s : state) (messageId : jsval) :
  present s messageId ->
  exists s',
    deleteMessage s messageId = Ok (s', true) /\
    removed (names s messageId) (stored s) (stored s') /\
    same_backend s s'.
Proof.
  unfold same_backend, stored. destruct (db s) as [c|] eqn:Hdb.
  - intros Hp. apply (present_durable _ c) in Hp; [|done].
    destruct Hp as (o & Hnew & Hex).
    destruct (deleteMessage_durable_found _ _ _ _ Hdb Hnew Hex)
      as (l1 & m & l2 & Hl & Hl1 & Hm & Hdel).
    eexists. split; [exact Hdel|]. simpl. split; [|by eauto].
    exists l1, m, l2. split_and!; [done| |by unfold names; rewrite Hdb; eauto|done].
    by apply (names_durable s c messageId o).
  - intros Hp. apply present_fallback in Hp; [|done].
    destruct (deleteMessage_fallback_found _ _ Hdb Hp)
      as (l1 & m & l2 & Hl & Hl1 & Hm & Hdel).
    eexists. split; [exact Hdel|]. simpl. rewrite Hdb. split; [|done].
    exists l1, m, l2. unfold names. rewrite Hdb. done.
Qed.

Lemma deleteMessage_not_present (s : state) (messageId : jsval) :
  ~ present s messageId ->
  deleteMessage s messageId =
    match db s, ObjectId.new messageId with
    | Some _, Throw e => Throw e
    | _, _ => Ok (s, false)
    end.
Proof.
  destruct (db s) as [c|] eqn:Hdb.
  - intros Hn. destruct (ObjectId.new messageId) as [oo|e] eqn:Hnew.
    + by apply deleteMessage_durable_absent with c oo.
    + by apply deleteMessage_durable_throws with c.
  - intros Hn. rewrite present_fallback in Hn by done.
    by apply deleteMessage_fallback_absent.
Qed.

(** X6.  [deleteMessage], on either backend: when a message with that id
    exists the call returns [true] and the active backend loses the first
    message the id designates and no other; when none exists the state is
    left as it is, and the call returns [false], except on the durable
    backend for an id the ObjectId constructor rejects, where it throws. *)
Theorem deleteMessage_result (s : state) (messageId : jsval) :
  (present s messageId ->
   exists s',
     deleteMessage s messageId = Ok (s', true) /\
     removed (names s messageId) (stored s) (stored s') /\
     same_backend s s') /\
  (~ present s messageId ->
   deleteMessage s messageId =
     match db s, ObjectId.new messageId with
     | Some _, Throw e => Throw e
     | _, _ => Ok (s, false)
     end).
Proof.
  split.
  - intros Hp. destruct (deleteMessage_present s messageId Hp)
      as (s' & Hdel & Hrem & Hsame).
    exists s'. by split_and!.
  - intros Hn. by rewrite (deleteMessage_not_present s messageId Hn).
Qed.

Lemma deleteMessage_result_witness :
  exists s',
    deleteMessage Sample.durable (JStr "507F191E810C19729DE860EA") = Ok (s', true) /\
    removed (names Sample.durable (JStr "507F191E810C19729DE860EA"))
      (stored Sample.durable) (stored s') /\
    same_backend Sample.durable s'.
Proof.
  apply (proj1 (deleteMessage_result Sample.durable
                  (JStr "507F191E810C19729DE860EA"))).
  exists Sample.oid2. split; [vm_compute; reflexivity|].
  apply Exists_cons_tl, Exists_cons_hd. reflexivity.
Defined.

(** X7.  A DELETE request is answered 200 exactly when a message with that
    id exists in the active backend; it then removes the first message the
    id designates and broadcasts one [messageDeleted] event. *)
Theorem delete_succeeds_iff_present (s : state) (id : string) :
  (status (snd (Rest.delete_messages_id s id)) = Some 200%nat <->
   present s (JStr id)) /\
  (present s (JStr id) ->
   exists s',
     Rest.delete_messages_id s id =
       (s', [IoEmit "messageDeleted" (PObject {[ "messageId" := JStr id ]});
             Respond 200 (success_body "Message deleted successfully")]) /\
     removed (names s (JStr id)) (stored s) (stored s')).
Proof.
  pose proof (deleteMessage_present s (JStr id)) as Hyes.
  pose proof (deleteMessage_not_present s (JStr id)) as Hno.
  assert (present s (JStr id) ->
    exists s',
      Rest.delete_messages_id s id =
        (s', [IoEmit "messageDeleted" (PObject {[ "messageId" := JStr id ]});
              Respond 200 (success_body "Message deleted successfully")]) /\
      removed (names s (JStr id)) (stored s) (stored s')) as Hok.
  { intros Hp. destruct (Hyes Hp) as (s' & Hdel & Hrem & _).
    exists s'. unfold Rest.delete_messages_id. by rewrite Hdel. }
  split; [|done]. split.
  - intros Hst. destruct (present_or_not s (JStr id)) as [Hp|Hn]; [done|].
    exfalso. unfold Rest.delete_messages_id in Hst. rewrite (Hno Hn) in Hst.
    destruct (db s), (ObjectId.new (JStr id)); simpl in Hst; discriminate.
  - intros Hp. destruct (Hok Hp) as (s' & -> & _). reflexivity.
Qed.

Lemma delete_succeeds_iff_present_witness :
  exists s',
    Rest.delete_messages_id Sample.memory "m-2" =
      (s', [IoEmit "messageDeleted" (PObject {[ "messageId" := JStr "m-2" ]});
            Respond 200 (success_body "Message deleted successfully")]) /\
    removed (names Sample.memory (JStr "m-2")) (stored Sample.memory) (stored s').
Proof.
  apply (proj2 (delete_succeeds_iff_present Sample.memory "m-2")).
  unfold present. simpl. apply Exists_cons_tl, Exists_cons_hd. reflexivity.
Defined.

(** ** REST and channel paths agree *)

Lemma field_singleton (k : string) (v : jsval) : field {[ k := v ]} k = v.
Proof. unfold field. by rewrite lookup_singleton_eq. Qed.

Lemma field_pair_1 (k1 k2 : string) (v1 v2 : jsval) :
  field {[ k1 := v1; k2 := v2 ]} k1 = v1.
Proof. unfold field. by rewrite lookup_insert_eq. Qed.

Lemma field_pair_2 (k1 k2 : string) (v1 v2 : jsval) :
  k1 <> k2 -> field {[ k1 := v1; k2 := v2 ]} k2 = v2.
Proof.
  intros Hk. unfold field. rewrite lookup_insert_ne by done.
  by rewrite lookup_singleton_eq.
Qed.

Lemma truthy_JStr (a : string) : a <> "" -> truthy (JStr a) = true.
Proof. intros Ha. simpl. by destruct (String.eqb_spec a ""). Qed.

(** X8.  An [updateMessage] event and a PUT carrying the same identifier and
    content reach the same state and broadcast the same events; the PUT is
    answered 200 exactly when the channel path sends no [error] back. *)
Theorem update_paths_agree (s : state) (id : string) (ct : jsval)
    (socket : nat) (now : Z) :
  id <> "" -> truthy ct = true ->
  let rest := Rest.put_messages_id s id (Some {[ "content" := ct ]}) now in
  let chan := Socket.on_updateMessage s socket
                (Some {[ "messageId" := JStr id; "content" := ct ]}) now in
  fst rest = fst chan /\ broadcasts (snd rest) = broadcasts (snd chan) /\
  (status (snd rest) = Some 200%nat <-> unicasts (snd chan) = []).
Proof.
  intros Hid Hct rest chan. subst rest chan.
  unfold Rest.put_messages_id, Socket.on_updateMessage.
  unfold destructure, bind, try_catch. cbv beta iota.
  rewrite field_singleton, field_pair_1, field_pair_2 by done.
  rewrite Hct, (truthy_JStr id Hid). cbn [negb orb].
  destruct (updateMessage s (JStr id) ct now) as [[s' [|]]|e]; simpl;
    (split_and!; [done..|]); split; intros; done.
Qed.

Lemma update_paths_agree_witness :
  let rest := Rest.put_messages_id Sample.memory "m-1" (Some {[ "content" := JStr "x" ]}) 50 in
  let chan := Socket.on_updateMessage Sample.memory 3
                (Some {[ "messageId" := JStr "m-1"; "content" := JStr "x" ]}) 50 in
  fst rest = fst chan /\ broadcasts (snd rest) = broadcasts (snd chan) /\
  (status (snd rest) = Some 200%nat <-> unicasts (snd chan) = []).
Proof.
  apply (update_paths_agree Sample.memory "m-1" (JStr "x") 3 50);
    [discriminate | reflexivity].
Defined.

(** X9.  A [deleteMessage] event and a DELETE carrying the same identifier
    reach the same state and broadcast the same events; the DELETE is
    answered 200 exactly when the channel path sends no [error] back. *)
Theorem delete_paths_agree (s : state) (id : string) (socket : nat) :
  id <> "" ->
  let rest := Rest.delete_messages_id s id in
  let chan := Socket.on_deleteMessage s socket
                (Some {[ "messageId" := JStr id ]}) in
  fst rest = fst chan /\ broadcasts (snd rest) = broadcasts (snd chan) /\
  (status (snd rest) = Some 200%nat <-> unicasts (snd chan) = []).
Proof.
  intros Hid rest chan. subst rest chan.
  unfold Rest.delete_messages_id, Socket.on_deleteMessage.
  unfold destructure, bind, try_catch. cbv beta iota.
  rewrite field_singleton, (truthy_JStr id Hid). cbn [negb].
  destruct (deleteMessage s (JStr id)) as [[s' [|]]|e]; simpl;
    (split_and!; [done..|]); split; intros; done.
Qed.

Lemma delete_paths_agree_witness :
  let rest := Rest.delete_messages_id Sample.durable "abc" in
  let chan := Socket.on_deleteMessage Sample.durable 3
                (Some {[ "messageId" := JStr "abc" ]}) in
  fst rest = fst chan /\ broadcasts (snd rest) = broadcasts (snd chan) /\
  (status (snd rest) = Some 200%nat <-> unicasts (snd chan) = []).
Proof.
  apply (delete_paths_agree Sample.durable "abc" 3). discriminate.
Defined.

(** ** Updating *)

(** X10.  On the in-memory fallback a PUT that supplies [content] is
    answered 200 exactly when a message with that id exists; the first such
    message then has its content replaced and [updatedAt] set to the time of
    the request, and the other messages are left as they were. *)
Theorem put_fallback_succeeds_iff_present (s : state) (id : string)
    (body : gmap string jsval) (now : Z) :
  db s = None -> truthy (field body "content") = true ->
  (status (snd (Rest.put_messages_id s id (Some body) now)) = Some 200%nat <->
   present s (JStr id)) /\
  (present s (JStr id) ->
   replaced (id_is (JStr id)) (field body "content") now
     (messages s) (messages (fst (Rest.put_messages_id s id (Some body) now)))).
Proof.
  intros Hdb Hct. unfold Rest.put_messages_id. cbn [destructure bind].
  rewrite Hct. simpl.
  rewrite (present_fallback _ _ Hdb).
  destruct (decide (Exists (id_is (JStr id)) (messages s))) as [Hex|Hn].
  - destruct (updateMessage_fallback_found s (JStr id)
                (field body "content") now Hdb Hex)
      as (l1 & m & l2 & Hl & Hl1 & Hm & Hup).
    rewrite Hup. simpl. split; [done|]. intros _. by exists l1, m, l2.
  - rewrite (updateMessage_fallback_absent _ _ _ _ Hdb Hn). simpl.
    split; [|done]. split; [discriminate|done].
Qed.

Lemma put_fallback_succeeds_iff_present_witness :
  (status (snd (Rest.put_messages_id Sample.memory "m-2" (Some Sample.new_text) 50))
     = Some 200%nat <-> present Sample.memory (JStr "m-2")) /\
  (present Sample.memory (JStr "m-2") ->
   replaced (id_is (JStr "m-2")) (field Sample.new_text "content") 50
     (messages Sample.memory)
     (messages (fst (Rest.put_messages_id Sample.memory "m-2" (Some Sample.new_text) 50)))).
Proof.
  apply (put_fallback_succeeds_iff_present Sample.memory "m-2" Sample.new_text 50);
    reflexivity.
Defined.

Lemma frame_set_content (ct : jsval) (now : Z) (m : message) :
  frame (set_content ct now m) = frame m.
Proof. reflexivity. Qed.

Lemma frame_replace (l1 l2 : list message) (m : message) (ct : jsval) (now : Z) :
  frame <$> (l1 ++ set_content ct now m :: l2) = frame <$> (l1 ++ m :: l2).
Proof. by rewrite !fmap_app, !fmap_cons, frame_set_content. Qed.

Lemma updateMessage_keeps (s s' : state) (messageId ct : jsval) (now : Z)
    (b : bool) :
  updateMessage s messageId ct now = Ok (s', b) ->
  frame <$> stored s' = frame <$> stored s /\ same_backend s s'.
Proof.
  intros Hup.
  unfold same_backend, stored. destruct (db s) as [c|] eqn:Hdb.
  - destruct (ObjectId.new messageId) as [[o|]|e] eqn:Hnew.
    + destruct (decide (Exists (Mongo.has_oid o) c)) as [Hex|Hn].
      * destruct (updateMessage_durable_found _ _ _ ct now _ Hdb Hnew Hex)
          as (l1 & m & l2 & Hl & _ & _ & Hup').
        rewrite Hup' in Hup. simplify_eq. simpl.
        split; [apply frame_replace|by eauto].
      * rewrite (updateMessage_durable_absent _ c _ _ _ (Some o)) in Hup;
          [|done..|].
        -- simplify_eq. rewrite Hdb. by eauto.
        -- rewrite (present_durable _ c) by done.
           intros (o' & Hnew' & Hex). rewrite Hnew in Hnew'. by simplify_eq.
    + unfold updateMessage in Hup. rewrite Hdb, Hnew in Hup. simpl in Hup.
      simplify_eq. rewrite Hdb. by eauto.
    + rewrite (updateMessage_durable_throws _ _ _ _ _ _ Hdb Hnew) in Hup.
      discriminate.
  - destruct (decide (Exists (id_is messageId) (messages s))) as [Hex|Hn].
    + destruct (updateMessage_fallback_found _ _ ct now Hdb Hex)
        as (l1 & m & l2 & Hl & _ & _ & Hup').
      rewrite Hup' in Hup. simplify_eq. simpl. rewrite Hdb, Hl.
      split; [apply frame_replace|done].
    + rewrite (updateMessage_fallback_absent _ _ _ _ Hdb Hn) in Hup.
      simplify_eq. by rewrite Hdb.
Qed.

(** X11.  Whatever [updateMessage] returns, on either backend, it changes
    nothing but the [content] and [updatedAt] of stored messages: the
    messages of the active backend keep their number, their order and their
    [_id], [senderId], [conversationId], [timestamp] and [createdAt]; the
    backend in use stays the same. *)
Theorem updateMessage_frame (s s' : state) (messageId ct : jsval) (now : Z)
    (b : bool) :
  updateMessage s messageId ct now = Ok (s', b) ->
  frame <$> stored s' = frame <$> stored s /\
  length (stored s') = length (stored s) /\
  same_backend s s'.
Proof.
  intros Hup.
  destruct (updateMessage_keeps _ _ _ _ _ _ Hup) as [Hframe Hsame].
  split_and!; [done| |done].
  by rewrite <- (length_fmap frame (stored s')), Hframe, length_fmap.
Qed.

Lemma updateMessage_frame_witness :
  frame <$> stored (set_messages
              (<[1%nat := set_content (JStr "x") 50
                            (Sample.chat (Uuid "m-2") "two" 20)]>
                 (messages Sample.memory)) Sample.memory)
    = frame <$> stored Sample.memory /\
  length (stored (set_messages
              (<[1%nat := set_content (JStr "x") 50
                            (Sample.chat (Uuid "m-2") "two" 20)]>
                 (messages Sample.memory)) Sample.memory))
    = length (stored Sample.memory) /\
  same_backend Sample.memory
    (set_messages
       (<[1%nat := set_content (JStr "x") 50 (Sample.chat (Uuid "m-2") "two" 20)]>
          (messages Sample.memory)) Sample.memory).
Proof.
  apply (updateMessage_frame Sample.memory _ (JStr "m-2") (JStr "x") 50 true).
  reflexivity.
Defined.

(** ** What a single event can do *)

Lemma updateMessage_false_unchanged (s s' : state) (messageId ct : jsval)
    (now : Z) :
  updateMessage s messageId ct now = Ok (s', false) -> s' = s.
Proof.
  unfold updateMessage. destruct (db s) as [c|] eqn:Hdb.
  - destruct (ObjectId.new messageId) as [[o|]|e]; simpl; [|congruence..].
    unfold Mongo.updateOne.
    destruct (list_find (Mongo.has_oid o) c) as [[i doc]|] eqn:Hfind.
    + destruct (decide (set_content ct now doc = doc)) as [Heq|Hne].
      * intros H. assert (s' = set_db (<[i:=set_content ct now doc]> c) s)
          as -> by (simpl in H; congruence).
        rewrite Heq. apply list_find_Some in Hfind as (Hi & _).
        rewrite list_insert_id by done. by apply set_db_same.
      * intros H. simpl in H. discriminate.
    + intros H. simpl in H. simplify_eq. by apply set_db_same.
  - destruct (list_find (id_is messageId) (messages s)) as [[i m]|];
      congruence.
Qed.

Lemma deleteMessage_false_unchanged (s s' : state) (messageId : jsval) :
  deleteMessage s messageId = Ok (s', false) -> s' = s.
Proof.
  unfold deleteMessage. destruct (db s) as [c|] eqn:Hdb.
  - destruct (ObjectId.new messageId) as [[o|]|e]; simpl; [|congruence..].
    unfold Mongo.deleteOne.
    destruct (list_find (Mongo.has_oid o) c) as [[i doc]|] eqn:Hfind.
    + intros H. simpl in H. discriminate.
    + intros H. simpl in H. simplify_eq. by apply set_db_same.
  - destruct (list_find (id_is messageId) (messages s)) as [[i m]|];
      congruence.
Qed.

(** Case analysis on the course a handler takes: the payload, the
    validation, the outcome of the adapter call. *)
Ltac handler_cases :=
  unfold Rest.get_messages, Rest.post_messages, Rest.put_messages_id,
    Rest.delete_messages_id, Socket.on_connection, Socket.on_sendMessage,
    Socket.on_updateMessage, Socket.on_deleteMessage, destructure,
    try_catch, bind;
  repeat match goal with
    | |- context [match ?d with Some _ => _ | None => _ end] =>
        is_var d; destruct d
    | |- context [saveMessage ?s ?m ?g] =>
        destruct (saveMessage s m g) as [? ?] eqn:?
    | |- context [updateMessage ?s ?i ?c ?n] =>
        destruct (updateMessage s i c n) as [[? []]|?] eqn:?
    | |- context [deleteMessage ?s ?i] =>
        destruct (deleteMessage s i) as [[? []]|?] eqn:?
    | |- context [if ?b then _ else _] => destruct b eqn:?
    end;
  cbn [fst snd broadcasts unicasts responses status error_event].

(** X12.  An event makes the server emit at most one channel event, either
    a broadcast or a message to one connection; and a request or channel
    event that broadcasts nothing leaves the state exactly as it was: every
    change of the stored messages is announced to all connections. *)
Theorem quiet_step_changes_nothing (s : state) (e : event) :
  is_connected e = false ->
  (length (broadcasts (snd (step s e))) + length (unicasts (snd (step s e)))
     <= 1)%nat /\
  (broadcasts (snd (step s e)) = [] -> fst (step s e) = s).
Proof.
  intros He. destruct e; try discriminate; cbn [step]; handler_cases;
    (split; [simpl; lia|]); try done; try discriminate;
    eauto using updateMessage_false_unchanged, deleteMessage_false_unchanged.
Qed.

Lemma quiet_step_changes_nothing_witness :
  (length (broadcasts (snd (step Sample.durable (HttpPut "abc" (Some Sample.new_text) 50))))
   + length (unicasts (snd (step Sample.durable (HttpPut "abc" (Some Sample.new_text) 50))))
     <= 1)%nat /\
  (broadcasts (snd (step Sample.durable (HttpPut "abc" (Some Sample.new_text) 50))) = [] ->
   fst (step Sample.durable (HttpPut "abc" (Some Sample.new_text) 50)) = Sample.durable).
Proof.
  apply (quiet_step_changes_nothing Sample.durable
           (HttpPut "abc" (Some Sample.new_text) 50)).
  reflexivity.
Defined.

(** X13.  Every HTTP request receives exactly one response, with status 200,
    201, 400, 404 or 500; the connection of MongoDB and the channel events
    produce no HTTP response. *)
Theorem one_response_per_request (s : state) (e : event) :
  if is_request e then
    exists st body,
      responses (snd (step s e)) = [(st, body)] /\
      st ∈ [200; 201; 400; 404; 500]%nat
  else responses (snd (step s e)) = [].
Proof.
  destruct e; cbn [step is_request]; handler_cases; try done;
    do 2 eexists; (split; [reflexivity|]); set_solver.
Qed.

(** X14.  A message addressed to a single connection ([existingMessages] or
    [error]) only ever goes to the connection the event came from; HTTP
    requests address no single connection. *)
Theorem unicast_to_origin_only (s : state) (e : event) (socket : nat)
    (ev : string) (p : payload) :
  (socket, ev, p) ∈ unicasts (snd (step s e)) -> origin e = Some socket.
Proof.
  destruct e; cbn [step origin]; handler_cases; intros Hin;
    repeat match goal with
      | H : _ ∈ [] |- _ => by apply elem_of_nil in H
      | H : _ ∈ [_] |- _ => apply list_elem_of_singleton in H; simplify_eq
      end; done.
Qed.

Lemma unicast_to_origin_only_witness :
  origin (OnDeleteMessage 7 (Some ∅)) = Some 7%nat.
Proof.
  apply (unicast_to_origin_only Sample.memory (OnDeleteMessage 7 (Some ∅)) 7
           "error" (PObject {[ "message" := JStr "messageId is required" ]})).
  apply list_elem_of_singleton. reflexivity.
Defined.

(** ** The choice of the backend *)

Lemma same_backend_refl (s : state) : same_backend s s.
Proof. unfold same_backend. destruct (db s) eqn:Hdb; eauto. Qed.

Lemma saveMessage_same_backend (s s' : state) (msg saved : message) (g : idgen) :
  saveMessage s msg g = (s', saved) -> same_backend s s'.
Proof.
  unfold saveMessage, same_backend. destruct (db s) as [c|] eqn:Hdb;
    intros [= <- _]; simpl; eauto.
Qed.

Lemma updateMessage_same_backend (s s' : state) (messageId ct : jsval)
    (now : Z) (b : bool) :
  updateMessage s messageId ct now = Ok (s', b) -> same_backend s s'.
Proof. intros Hup. by destruct (updateMessage_keeps _ _ _ _ _ _ Hup). Qed.

Lemma deleteMessage_same_backend (s s' : state) (messageId : jsval) (b : bool) :
  deleteMessage s messageId = Ok (s', b) -> same_backend s s'.
Proof.
  intros Hdel. destruct b.
  - destruct (present_or_not s messageId) as [Hp|Hn].
    + destruct (deleteMessage_present s messageId Hp) as (s'' & Hdel' & _ & H).
      rewrite Hdel' in Hdel. by simplify_eq.
    + rewrite (deleteMessage_not_present s messageId Hn) in Hdel.
      destruct (db s), (ObjectId.new messageId); discriminate.
  - apply deleteMessage_false_unchanged in Hdel as ->. apply same_backend_refl.
Qed.

Lemma step_same_backend (s : state) (e : event) :
  is_connected e = false -> same_backend s (fst (step s e)).
Proof.
  intros He. destruct e; try discriminate; cbn [step]; handler_cases;
    eauto using same_backend_refl, saveMessage_same_backend,
      updateMessage_same_backend, deleteMessage_same_backend.
Qed.

(** X15.  The two backends are never mixed.  Once the connection to MongoDB
    has resolved the server stays on the durable backend and never writes
    the in-memory list again, whatever events follow; and as long as the
    connection has not resolved, no event makes the server leave the
    in-memory list. *)
Theorem backend_never_mixed (s : state) (es : list event) :
  (is_Some (db s) ->
   is_Some (db (run s es)) /\ messages (run s es) = messages s) /\
  (db s = None -> Forall (fun e => is_connected e = false) es ->
   db (run s es) = None).
Proof.
  revert s. induction es as [|e es IH]; intros s; [by split|].
  cbn [run foldl]. fold (run (fst (step s e)) es).
  destruct (IH (fst (step s e))) as [IHsome IHnone]. split.
  - intros Hsome.
    assert (is_Some (db (fst (step s e)))
            /\ messages (fst (step s e)) = messages s) as [Hdb Hmsg].
    { destruct (is_connected e) eqn:He.
      - destruct e; try discriminate. simpl. eauto.
      - pose proof (step_same_backend s e He) as Hsame.
        unfold same_backend in Hsame. destruct Hsome as [c Hc].
        by rewrite Hc in Hsame. }
    destruct (IHsome Hdb) as [? Hrun]. split; [done|]. by rewrite Hrun.
  - intros Hnone [He Hes]%Forall_cons. apply IHnone; [|done].
    pose proof (step_same_backend s e He) as Hsame.
    unfold same_backend in Hsame. by rewrite Hnone in Hsame.
Qed.

Lemma backend_never_mixed_witness :
  db (run initial Sample.trace) = None.
Proof.
  apply (proj2 (backend_never_mixed initial Sample.trace)); [reflexivity|].
  repeat constructor.
Defined.

(** ** Create and delete *)

(** X17.  Saving a message and then deleting it under the identifier it was
    given returns [true] and brings the server back to the state it had
    before the save: the stored messages are exactly those that were there,
    in the same order.  The generated identifier is carried by no stored
    message. *)
Theorem create_then_delete (s : state) (msg : message) (g : idgen) :
  fresh g s -> (insertedId g < 2 ^ 96)%N ->
  exists s1 saved i,
    saveMessage s msg g = (s1, saved) /\ _id saved = Some i /\
    deleteMessage s1 (id_json i) = Ok (s, true).
Proof.
  intros Hfresh Hbound. unfold fresh in Hfresh. unfold saveMessage.
  destruct (db s) as [c|] eqn:Hdb.
  - set (saved := with_id (Oid (insertedId g)) msg).
    set (s1 := set_db (Mongo.insertOne c msg (insertedId g)) s).
    assert (ObjectId.new (id_json (Oid (insertedId g)))
            = Ok (Some (insertedId g))) as Hparse.
    { apply ObjectId_new_valid, of_string_toHexString, Hbound. }
    assert (Exists (Mongo.has_oid (insertedId g)) (c ++ [saved])) as Hex.
    { apply Exists_app. right. by apply Exists_cons_hd. }
    destruct (deleteMessage_durable_found s1 (c ++ [saved]) _ _
                eq_refl Hparse Hex) as (l1 & m & l2 & Hl & _ & Hm & Hdel).
    destruct (first_match_last (Mongo.has_oid (insertedId g)) _ _ _ _ _
                Hfresh Hl Hm) as (-> & -> & ->).
    exists s1, saved, (Oid (insertedId g)).
    split_and!; [reflexivity..|]. rewrite Hdel, app_nil_r. do 2 f_equal.
    destruct s as [d l]. simpl in Hdb. by subst d.
  - set (saved := with_id (Uuid (uuidv4 g)) msg).
    set (s1 := set_messages (messages s ++ [saved]) s).
    assert (Forall (fun y => ~ id_is (JStr (uuidv4 g)) y) (messages s)) as Hno.
    { eapply Forall_impl; [exact Hfresh|]. intros y Hy. by rewrite id_is_uuid. }
    assert (Exists (id_is (JStr (uuidv4 g))) (messages s1)) as Hex.
    { apply Exists_app. right. apply Exists_cons_hd. by apply id_is_uuid. }
    destruct (deleteMessage_fallback_found s1 (JStr (uuidv4 g)) Hdb Hex)
      as (l1 & m & l2 & Hl & _ & Hm & Hdel).
    destruct (first_match_last _ _ _ _ _ _ Hno Hl Hm) as (-> & -> & ->).
    exists s1, saved, (Uuid (uuidv4 g)).
    split_and!; [reflexivity..|]. cbn [id_json]. rewrite Hdel, app_nil_r.
    do 2 f_equal. by destruct s.
Qed.

Lemma create_then_delete_witness :
  exists s1 saved i,
    saveMessage Sample.durable
      (new_message (JStr "u1") (JStr "hi") JUndefined 50 50) Sample.gen
      = (s1, saved) /\
    _id saved = Some i /\
    deleteMessage s1 (id_json i) = Ok (Sample.durable, true).
Proof.
  apply (create_then_delete Sample.durable
           (new_message (JStr "u1") (JStr "hi") JUndefined 50 50) Sample.gen).
  - unfold fresh. simpl. repeat constructor; vm_compute; discriminate.
  - vm_compute. reflexivity.
Defined.

(** ** Once connected, the in-memory list plays no part *)

Lemma step_connected_independent (c : list message) (l1 l2 : list message)
    (e : event) :
  snd (step {| db := Some c; messages := l1 |} e) =
    snd (step {| db := Some c; messages := l2 |} e) /\
  db (fst (step {| db := Some c; messages := l1 |} e)) =
    db (fst (step {| db := Some c; messages := l2 |} e)) /\
  is_Some (db (fst (step {| db := Some c; messages := l1 |} e))).
Proof.
  destruct e; cbn [step];
    unfold Rest.get_messages, Rest.post_messages, Rest.put_messages_id,
      Rest.delete_messages_id, Socket.on_connection, Socket.on_sendMessage,
      Socket.on_updateMessage, Socket.on_deleteMessage, destructure,
      getMessages, saveMessage, updateMessage, deleteMessage, set_db,
      try_catch, bind;
    cbn [db messages fst snd];
    repeat match goal with
      | |- context [match ?d with Some _ => _ | None => _ end] =>
          is_var d; destruct d
      | |- context [ObjectId.new ?v] => destruct (ObjectId.new v) as [[?|]|?]
      | |- context [Mongo.updateOne ?c ?o ?ct ?n] =>
          destruct (Mongo.updateOne c o ct n) as [? ?]
      | |- context [Mongo.deleteOne ?c ?o] =>
          destruct (Mongo.deleteOne c o) as [? ?]
      | |- context [if ?b then _ else _] => destruct b
      end;
    cbn [db messages fst snd]; eauto.
Qed.

(** X16.  Once the connection to MongoDB has resolved, what the server
    emits and what it stores in the collection do not depend on the
    in-memory list: two servers holding the same collection answer every
    sequence of events with the same effects and end with the same
    collection, whatever their in-memory lists hold.  Messages saved in
    memory before the connection resolved are thus never listed again. *)
Theorem connected_ignores_memory (s1 s2 : state) (es : list event) :
  is_Some (db s1) -> db s1 = db s2 ->
  trace_effects s1 es = trace_effects s2 es /\
  db (run s1 es) = db (run s2 es).
Proof.
  revert s1 s2. induction es as [|e es IH]; intros s1 s2 Hsome Hdb; [done|].
  destruct s1 as [d1 l1], s2 as [d2 l2]. simpl in Hsome, Hdb. subst d2.
  destruct Hsome as [c ->].
  destruct (step_connected_independent c l1 l2 e) as (Heff & Hdb' & Hsome').
  destruct (IH _ _ Hsome' Hdb') as [IHeff IHdb].
  cbn [trace_effects run foldl].
  fold (run (fst (step {| db := Some c; messages := l1 |} e)) es).
  fold (run (fst (step {| db := Some c; messages := l2 |} e)) es).
  by rewrite Heff, IHeff, IHdb.
Qed.

Lemma connected_ignores_memory_witness :
  trace_effects Sample.durable Sample.trace =
    trace_effects (set_db (stored Sample.durable) Sample.memory) Sample.trace /\
  db (run Sample.durable Sample.trace) =
    db (run (set_db (stored Sample.durable) Sample.memory) Sample.trace).
Proof.
  apply (connected_ignores_memory Sample.durable
           (set_db (stored Sample.durable) Sample.memory) Sample.trace).
  - by eexists.
  - reflexivity.
Defined.

(** ** Unique identifiers *)

Lemma names_same_id (s : state) (messageId : jsval) (x y : message) :
  names s messageId x -> names s messageId y -> _id x = _id y.
Proof.
  unfold names. destruct (db s).
  - intros (o & Hnew & Hx) (o' & Hnew' & Hy). rewrite Hnew in Hnew'.
    simplify_eq. unfold Mongo.has_oid in *. congruence.
  - unfold id_is, strict_eq_id. intros Hx Hy.
    destruct (_id x) as [[u|o]|], (_id y) as [[u'|o']|], messageId;
      try discriminate; try done.
    apply bool_decide_eq_true in Hx, Hy. congruence.
Qed.

Lemma names_same_backend (s s' : state) (messageId : jsval) (m : message) :
  same_backend s s' -> names s' messageId m <-> names s messageId m.
Proof.
  unfold same_backend, names. destruct (db s) as [c|].
  - by intros [[c' ->] _].
  - by intros ->.
Qed.

(** X18.  When the stored messages have pairwise distinct identifiers,
    deleting an identifier that is present removes the only message that
    carries it: afterwards no message with that identifier exists, the
    identifiers are still distinct, and deleting it again finds nothing and
    changes nothing. *)
Theorem delete_twice (s : state) (messageId : jsval) :
  unique_ids (stored s) -> present s messageId ->
  exists s',
    deleteMessage s messageId = Ok (s', true) /\
    ~ present s' messageId /\ unique_ids (stored s') /\
    deleteMessage s' messageId = Ok (s', false).
Proof.
  intros Huniq Hp.
  destruct (deleteMessage_present s messageId Hp)
    as (s' & Hdel & (l1 & m & l2 & Hl & Hl1 & Hm & Hl') & Hsame).
  unfold unique_ids in *. rewrite Hl in Huniq. rewrite fmap_app, fmap_cons in Huniq.
  apply NoDup_app in Huniq as (Hn1 & Hcross & Hn2).
  apply NoDup_cons in Hn2 as (Hm2 & Hn2).
  assert (~ present s' messageId) as Hgone.
  { rewrite present_names, Hl', Exists_exists.
    intros (x & [Hx|Hx]%elem_of_app & Hnx);
      apply (names_same_backend s s') in Hnx; try done.
    - rewrite Forall_forall in Hl1. by apply (Hl1 x).
    - apply Hm2. rewrite <- (names_same_id s messageId x m Hnx Hm).
      by apply list_elem_of_fmap_2. }
  exists s'. split_and!; [done|done| |].
  - rewrite Hl', fmap_app. apply NoDup_app. split_and!; [done| |done].
    intros i Hi1 Hi2. apply (Hcross i Hi1). by right.
  - rewrite (deleteMessage_not_present s' messageId Hgone).
    destruct (db s') as [c'|] eqn:Hdb'; [|done].
    destruct (ObjectId.new messageId) as [oo|e] eqn:Hnew; [done|].
    exfalso. unfold same_backend in Hsame. unfold present in Hp.
    destruct (db s) as [c|].
    + destruct Hp as (o & Hnew' & _). congruence.
    + congruence.
Qed.

Lemma delete_twice_witness :
  exists s',
    deleteMessage Sample.durable (JStr "507f1f77bcf86cd799439011") = Ok (s', true) /\
    ~ present s' (JStr "507f1f77bcf86cd799439011") /\ unique_ids (stored s') /\
    deleteMessage s' (JStr "507f1f77bcf86cd799439011") = Ok (s', false).
Proof.
  apply (delete_twice Sample.durable (JStr "507f1f77bcf86cd799439011")).
  - unfold unique_ids. apply (bool_decide_unpack _). vm_compute. exact I.
  - exists Sample.oid1. split; [vm_compute; reflexivity|].
    apply Exists_cons_hd. reflexivity.
Defined.

Lemma ids_of_frames (l : list message) :
  _id <$> l = (fun f => f.1.1.1.1) <$> (frame <$> l).
Proof. rewrite <- list_fmap_compose. by apply list_fmap_ext. Qed.

Lemma saveMessage_unique (s s' : state) (msg saved : message) (g : idgen) :
  saveMessage s msg g = (s', saved) -> fresh g s ->
  unique_ids (stored s) -> unique_ids (stored s').
Proof.
  unfold saveMessage, fresh, unique_ids, stored.
  destruct (db s) as [c|] eqn:Hdb; intros [= <- _] Hfresh Huniq; simpl;
    rewrite ?Hdb; unfold Mongo.insertOne;
    rewrite fmap_app; apply NoDup_app; (split_and!; [done| |apply NoDup_singleton]);
    intros i (m & Hi & Hin)%list_elem_of_fmap Hnew%list_elem_of_singleton;
    simpl in Hnew; rewrite Forall_forall in Hfresh; apply (Hfresh m Hin);
    congruence.
Qed.

Lemma updateMessage_unique (s s' : state) (messageId ct : jsval) (now : Z)
    (b : bool) :
  updateMessage s messageId ct now = Ok (s', b) ->
  unique_ids (stored s) -> unique_ids (stored s').
Proof.
  intros Hup. destruct (updateMessage_keeps _ _ _ _ _ _ Hup) as [Hframe _].
  unfold unique_ids. by rewrite !ids_of_frames, Hframe.
Qed.

Lemma deleteMessage_unique (s s' : state) (messageId : jsval) (b : bool) :
  deleteMessage s messageId = Ok (s', b) ->
  unique_ids (stored s) -> unique_ids (stored s').
Proof.
  intros Hdel Huniq. destruct b.
  - destruct (present_or_not s messageId) as [Hp|Hn].
    + destruct (deleteMessage_present s messageId Hp)
        as (s'' & Hdel' & (l1 & m & l2 & Hl & _ & _ & Hl') & _).
      rewrite Hdel' in Hdel. simplify_eq. unfold unique_ids in *.
      rewrite Hl', fmap_app. rewrite Hl, fmap_app, fmap_cons in Huniq.
      apply NoDup_app in Huniq as (Hn1 & Hcross & Hn2).
      apply NoDup_cons in Hn2 as (_ & Hn2).
      apply NoDup_app. split_and!; [done| |done].
      intros i Hi1 Hi2. apply (Hcross i Hi1). by right.
    + rewrite (deleteMessage_not_present s messageId Hn) in Hdel.
      destruct (db s), (ObjectId.new messageId); discriminate.
  - by apply deleteMessage_false_unchanged in Hdel as ->.
Qed.

Lemma step_unique (s : state) (e : event) :
  fresh_for s e -> unique_ids (stored s) -> unique_ids (stored (fst (step s e))).
Proof.
  intros Hfresh Huniq. destruct e; cbn [step fresh_for] in *;
    [done|handler_cases..|done];
    eauto using saveMessage_unique, updateMessage_unique, deleteMessage_unique.
Qed.

(** X19.  Identifiers stay unique within the active backend.  Starting from
    stored messages with pairwise distinct identifiers, any sequence of
    events leads to stored messages with pairwise distinct identifiers,
    provided each identifier generated for a create is carried by no stored
    message at that moment and a collection the server connects to holds no
    identifier twice: updates and deletes never duplicate or alter an
    identifier. *)
Theorem unique_ids_kept (s : state) (es : list event) :
  unique_ids (stored s) -> fresh_along s es -> unique_ids (stored (run s es)).
Proof.
  revert s. induction es as [|e es IH]; intros s Huniq Hfresh; [done|].
  destruct Hfresh as [He Hes]. cbn [run foldl].
  fold (run (fst (step s e)) es). apply IH; [|done]. by apply step_unique.
Qed.

Lemma unique_ids_kept_witness :
  unique_ids (stored (run initial Sample.trace)).
Proof.
  apply (unique_ids_kept initial Sample.trace).
  - apply NoDup_nil_2.
  - vm_compute. repeat split; repeat constructor; discriminate.
Defined.

(** ** Dates of the messages held in memory *)

Lemma well_dated_later (last last' : Z) (m : message) :
  last <= last' -> well_dated last m -> well_dated last' m.
Proof.
  intros Hle (H1 & H2 & H3). split_and!; [done|lia|].
  intros u Hu. destruct (H3 u Hu). lia.
Qed.

Lemma well_dated_set_content (last now : Z) (ct : jsval) (m : message) :
  last <= now -> well_dated last m -> well_dated now (set_content ct now m).
Proof.
  intros Hle (H1 & H2 & H3). unfold well_dated. simpl.
  split_and!; [done|lia|]. intros u [= <-]. lia.
Qed.

Lemma saveMessage_well_dated (last : Z) (s s' : state) (sd ct cv : jsval)
    (now1 now2 : Z) (saved : message) (g : idgen) :
  saveMessage s (new_message sd ct cv now1 now2) g = (s', saved) ->
  last <= now1 -> now1 <= now2 ->
  Forall (well_dated last) (messages s) -> Forall (well_dated now2) (messages s').
Proof.
  intros Hsave H1 H2 Hall.
  assert (Forall (well_dated now2) (messages s)) as Hall'.
  { eapply Forall_impl; [exact Hall|]. intros m. apply well_dated_later. lia. }
  unfold saveMessage in Hsave. destruct (db s); simplify_eq; simpl; [done|].
  apply Forall_app. split; [done|]. apply Forall_singleton.
  unfold well_dated. simpl. split_and!; [done|lia|]. intros u [=].
Qed.

Lemma updateMessage_well_dated (last : Z) (s s' : state) (messageId ct : jsval)
    (now : Z) (b : bool) :
  updateMessage s messageId ct now = Ok (s', b) -> last <= now ->
  Forall (well_dated last) (messages s) -> Forall (well_dated now) (messages s').
Proof.
  intros Hup Hle Hall.
  assert (Forall (well_dated now) (messages s)) as Hall'.
  { eapply Forall_impl; [exact Hall|]. intros m. by apply well_dated_later. }
  destruct (db s) as [c|] eqn:Hdb.
  - pose proof (updateMessage_same_backend _ _ _ _ _ _ Hup) as Hsame.
    unfold same_backend in Hsame. rewrite Hdb in Hsame.
    destruct Hsame as [_ ->]. done.
  - destruct (decide (Exists (id_is messageId) (messages s))) as [Hex|Hn].
    + destruct (updateMessage_fallback_found _ _ ct now Hdb Hex)
        as (l1 & m & l2 & Hl & _ & _ & Hup').
      rewrite Hup' in Hup. simplify_eq. simpl.
      rewrite Hl in Hall, Hall'.
      apply Forall_app in Hall as (_ & (Hm & _)%Forall_cons).
      apply Forall_app in Hall' as (Hl1 & (_ & Hl2)%Forall_cons).
      apply Forall_app. split; [done|]. apply Forall_cons. split; [|done].
      by apply (well_dated_set_content last).
    + rewrite (updateMessage_fallback_absent _ _ _ _ Hdb Hn) in Hup.
      by simplify_eq.
Qed.

Lemma deleteMessage_well_dated (last : Z) (s s' : state) (messageId : jsval)
    (b : bool) :
  deleteMessage s messageId = Ok (s', b) ->
  Forall (well_dated last) (messages s) -> Forall (well_dated last) (messages s').
Proof.
  intros Hdel Hall. destruct (db s) as [c|] eqn:Hdb.
  - pose proof (deleteMessage_same_backend _ _ _ _ Hdel) as Hsame.
    unfold same_backend in Hsame. rewrite Hdb in Hsame.
    destruct Hsame as [_ ->]. done.
  - destruct (decide (Exists (id_is messageId) (messages s))) as [Hex|Hn].
    + destruct (deleteMessage_fallback_found _ _ Hdb Hex)
        as (l1 & m & l2 & Hl & _ & _ & Hdel').
      rewrite Hdel' in Hdel. simplify_eq. simpl. rewrite Hl in Hall.
      apply Forall_app in Hall as (Hl1 & (_ & Hl2)%Forall_cons).
      by apply Forall_app.
    + rewrite (deleteMessage_fallback_absent _ _ Hdb Hn) in Hdel.
      by simplify_eq.
Qed.

Lemma step_well_dated (last : Z) (s : state) (e : event) (es : list event) :
  Forall (well_dated last) (messages s) -> clock_monotone last (e :: es) ->
  exists last',
    Forall (well_dated last') (messages (fst (step s e))) /\
    clock_monotone last' es.
Proof.
  intros Hall Hclock.
  destruct e; cbn [clock_monotone] in Hclock; cbn [step];
    try (by exists last);
    try (destruct Hclock as (H1 & H2 & Hes); exists now2; split; [|done]);
    try (destruct Hclock as (H1 & Hes); exists now; split; [|done]);
    try (exists last; split; [|done]);
    handler_cases;
    eauto using saveMessage_well_dated, updateMessage_well_dated,
      deleteMessage_well_dated;
    (eapply Forall_impl; [exact Hall|]; intros ?; apply well_dated_later; lia).
Qed.

(** X20.  The dates of the messages held in memory are always consistent:
    in every state reached from the initial one, each message of the
    in-memory list has [timestamp <= createdAt], and an [updatedAt], when it
    has one, that is not earlier than its [createdAt].  The successive
    readings of the clock are taken to be non-decreasing. *)
Theorem memory_well_dated (t0 : Z) (es : list event) :
  clock_monotone t0 es ->
  Forall (fun m =>
            timestamp m <= createdAt m /\
            forall u, updatedAt m = Some u -> createdAt m <= u)
    (messages (run initial es)).
Proof.
  intros Hclock.
  assert (forall es last s,
            Forall (well_dated last) (messages s) -> clock_monotone last es ->
            exists last', Forall (well_dated last') (messages (run s es)))
    as Hrun.
  { clear. induction es as [|e es IH]; intros last s Hall Hclock.
    - by exists last.
    - destruct (step_well_dated _ _ _ _ Hall Hclock) as (last' & Hall' & Hclock').
      exact (IH last' _ Hall' Hclock'). }
  destruct (Hrun es t0 initial (Forall_nil_2 _) Hclock) as (last & Hall).
  eapply Forall_impl; [exact Hall|].
  intros m (H1 & _ & H3). split; [done|]. intros u Hu. by destruct (H3 u Hu).
Qed.

Lemma memory_well_dated_witness :
  Forall (fun m =>
            timestamp m <= createdAt m /\
            forall u, updatedAt m = Some u -> createdAt m <= u)
    (messages (run initial Sample.trace)).
Proof.
  apply (memory_well_dated 0 Sample.trace). simpl. lia.
Defined.
